(** * Returns analysis: ingestion, coercion and validation pipeline

    A shallow embedding of [returns_analysis.py]: the schema ([columns]),
    [coerce_types], [validate_row_level] and the ingestion loop of [main].

    Conventions of the embedding.
    - A pandas [DataFrame] is a [frame]: a row count and an ordered
      association list from column label to the column's values.  The row
      index is the [RangeIndex] 0..n-1 that [read_csv]/[read_excel] produce,
      so an index label is a position.  Column labels are distinct in a frame
      read from a file, and label lookup ([get_col]) takes the first match.
      Trimming the headers in [main] can make two labels equal; pandas then
      yields a DataFrame for [df[col]] and the conversions raise.  The
      embedding does not follow pandas there: properties that say a call
      returns are stated for frames whose labels are distinct.
    - [main] is embedded up to the point where its two artifacts are written
      (source lines 142-188).  Opening the files and drawing the charts
      (lines 190-220) are matplotlib and operating-system calls and are not
      part of the embedding; the source function can still raise there.
    - DataFrames are mutable Python objects.  They live in a [heap] (a list of
      frames, a reference is a position) and the code runs in the monad [Py],
      which threads the heap and propagates exceptions.
    - The pandas conversions [pd.to_numeric], [pd.to_datetime], the safe cast
      behind [astype("Int64")] and Python's [str()] are library code.  They
      are the fields of the class [Pandas]; every general theorem holds for
      all instances.  [ref_pandas] is a small concrete instance used to
      evaluate the pipeline on explicit tables.
    - [NaN], [NaT], [None] and [pd.NA] are all the one absent marker [NA]
      (they are exactly the values for which [pd.isna] answers true). *)

From Stdlib Require Import ZArith Ascii String.
From stdpp Require Import base list strings.

(** ** Python strings *)

(** [str.isspace] on one character (code points below 256). *)
Definition py_isspace (a : ascii) : bool :=
  let n := nat_of_ascii a in
  (Nat.leb 9 n && Nat.leb n 13) || (Nat.leb 28 n && Nat.leb n 32)
  || Nat.eqb n 133 || Nat.eqb n 160.

Fixpoint lstrip (s : string) : string :=
  match s with
  | EmptyString => EmptyString
  | String a s' => if py_isspace a then lstrip s' else s
  end.

Fixpoint rstrip (s : string) : string :=
  match s with
  | EmptyString => EmptyString
  | String a s' =>
      match rstrip s' with
      | EmptyString => if py_isspace a then EmptyString else String a EmptyString
      | r => String a r
      end
  end.

(** [s.strip()] *)
Definition strip (s : string) : string := rstrip (lstrip s).

(** [os.path.basename] on a POSIX path: what follows the last slash. *)
Fixpoint basename_from (s : string) (acc : string) : string :=
  match s with
  | EmptyString => acc
  | String a s' =>
      if Ascii.eqb a "/"%char then basename_from s' EmptyString
      else basename_from s' (acc +:+ String a EmptyString)
  end.

Definition basename (path : string) : string := basename_from path EmptyString.

(** ** Cells, frames, issues, findings *)

(** [datetime.date] *)
Record date := mk_date { year : Z; month : Z; day : Z }.

(** A cell of a DataFrame; [N] is the type of numeric scalars. *)
Inductive cell (N : Type) : Type :=
  | NA
  | Str (s : string)
  | Int (z : Z)
  | Float (x : N)
  | Date (d : date).

Arguments NA {N}.
Arguments Str {N} s.
Arguments Int {N} z.
Arguments Float {N} x.
Arguments Date {N} d.

(** [pd.isna] / [pd.notna] on a scalar. *)
Definition isna {N} (c : cell N) : bool :=
  match c with NA => true | _ => false end.

Definition notna {N} (c : cell N) : bool := negb (isna c).

Record frame (N : Type) : Type := mk_frame {
  nrows : nat;
  cols : list (string * list (cell N))
}.

Arguments mk_frame {N} nrows cols.
Arguments nrows {N} f.
Arguments cols {N} f.

(** The tuples [coerce_types] appends to [issues]:
    [(kind, col, None)] for a missing column ([irest = None]) and
    [(kind, col, idx, val)] for a cell ([irest = Some (idx, val)]). *)
Record issue (N : Type) : Type := mk_issue {
  ikind : string;
  icol : string;
  irest : option (nat * cell N)
}.

Arguments mk_issue {N} ikind icol irest.
Arguments ikind {N} i.
Arguments icol {N} i.
Arguments irest {N} i.

(** The dicts appended to [error_rows] (one line of the error report). *)
Record finding (N : Type) : Type := mk_finding {
  f_plant : option (cell N);
  f_row : option nat;
  f_column : option string;
  f_issue : string;
  f_value : option (cell N);
  f_file : string
}.

Arguments mk_finding {N} f_plant f_row f_column f_issue f_value f_file.
Arguments f_plant {N} f.
Arguments f_row {N} f.
Arguments f_column {N} f.
Arguments f_issue {N} f.
Arguments f_value {N} f.
Arguments f_file {N} f.

(** What the Reader yields for one path. *)
Inductive read_result (N : Type) : Type :=
  | ReadOk (df : frame N)
  | ReadErr (err : string).

Arguments ReadOk {N} df.
Arguments ReadErr {N} err.

(** The two artifacts of a run: the master workbook and the error report,
    [None] when the run does not write the file. *)
Record outputs (N : Type) : Type := mk_outputs {
  master_database : option (frame N);
  error_report : option (list (finding N))
}.

Arguments mk_outputs {N} master_database error_report.
Arguments master_database {N} o.
Arguments error_report {N} o.

(** ** The pandas primitives *)

(** Series-level conversions under [errors="coerce"]: the result has one
    entry per input cell, [None] where pandas yields [NaN] / [NaT]. *)
Class Pandas := {
  number : Type;
  pd_to_numeric : list (cell number) → list (option number);
  pd_to_numeric_length : ∀ s, length (pd_to_numeric s) = length s;
  pd_to_datetime : list (cell number) → list (option date);
  pd_to_datetime_length : ∀ s, length (pd_to_datetime s) = length s;
  (** the cast of one numeric value to int64 that [astype("Int64")] accepts:
      [None] when the value has no equal int64 *)
  safe_int64 : number → option Z;
  (** [str(v)] on a cell that is not a [str] *)
  py_repr : cell number → string
}.

(** ** Exceptions and the heap monad *)

Inductive exn := TypeError | ValueError | KeyError | InvalidRef.

Inductive outcome (A : Type) : Type :=
  | Ok (a : A)
  | Raise (e : exn).

Arguments Ok {A} a.
Arguments Raise {A} e.

(** A reference to a DataFrame object: its position in the heap. *)
Abbreviation loc := nat (only parsing).

(** The DataFrame objects alive, in allocation order. *)
Abbreviation heap := (list (frame number)) (only parsing).

Section Model.
Context `{Pandas}.

(** A computation over the heap that returns or raises. *)
Definition Py (A : Type) : Type := heap → outcome A * heap.

#[export] Instance Py_ret : MRet Py := λ A a h, (Ok a, h).

#[export] Instance Py_bind : MBind Py := λ A B k m h,
  match m h with
  | (Ok a, h') => k a h'
  | (Raise e, h') => (Raise e, h')
  end.

Definition raise {A} (e : exn) : Py A := λ h, (Raise e, h).

Definition load (l : loc) : Py (frame number) := λ h,
  match h !! l with
  | Some f => (Ok f, h)
  | None => (Raise InvalidRef, h)
  end.

Definition store (l : loc) (f : frame number) : Py unit := λ h,
  (Ok tt, <[l:=f]> h).

Definition alloc (f : frame number) : Py loc := λ h,
  (Ok (length h), h ++ [f]).

(** ** DataFrame operations *)

Definition labels (f : frame number) : list string := (cols f).*1.

(** [col in df.columns] *)
Definition has_col (f : frame number) (col : string) : bool :=
  bool_decide (col ∈ labels f).

Fixpoint assoc {V} (k : string) (l : list (string * V)) : option V :=
  match l with
  | [] => None
  | (k', v) :: r => if decide (k' = k) then Some v else assoc k r
  end.

Fixpoint assoc_set {V} (k : string) (v : V) (l : list (string * V))
  : list (string * V) :=
  match l with
  | [] => [(k, v)]
  | (k', v') :: r =>
      if decide (k' = k) then (k', v) :: r else (k', v') :: assoc_set k v r
  end.

(** The values under a label, [None] without it.  For a frame with distinct
    labels this is the Series [df[col]]; under a repeated label it is the
    first of the columns, where pandas yields a DataFrame. *)
Definition get_col (f : frame number) (col : string) : option (list (cell number)) :=
  assoc col (cols f).

(** [df[col] = values]: replaces the column in place, or appends it. *)
Definition set_col (f : frame number) (col : string) (vals : list (cell number))
  : frame number :=
  {| nrows := nrows f; cols := assoc_set col vals (cols f) |}.

(** [df.copy()] *)
Definition df_copy (df : loc) : Py loc := f ← load df; alloc f.

Definition df_has_column (df : loc) (col : string) : Py bool :=
  f ← load df; mret (has_col f col).

(** [df[col]] *)
Definition df_getitem (df : loc) (col : string) : Py (list (cell number)) :=
  f ← load df;
  match get_col f col with
  | Some series => mret series
  | None => raise KeyError
  end.

(** [df[col] = series] *)
Definition df_setitem (df : loc) (col : string) (vals : list (cell number))
  : Py unit :=
  f ← load df; store df (set_col f col vals).

(** [df[col] = scalar]: the scalar is broadcast to every row. *)
Definition df_setitem_scalar (df : loc) (col : string) (v : cell number)
  : Py unit :=
  f ← load df; store df (set_col f col (replicate (nrows f) v)).

(** Boolean-mask selection [xs[mask]]. *)
Fixpoint mask_select {A} (mask : list bool) (xs : list A) : list A :=
  match mask, xs with
  | b :: m, x :: r => if b then x :: mask_select m r else mask_select m r
  | _, _ => []
  end.

(** [coerced.isna()] on one converted value *)
Definition is_nan {A} (o : option A) : bool :=
  match o with None => true | Some _ => false end.

(** [coerced.isna() & series.notna()] *)
Definition bad_mask {A} (coerced : list (option A)) (series : list (cell number))
  : list bool :=
  zip_with andb (map is_nan coerced) (map notna series).

(** The tuples appended by
    [for idx, val in zip(series.index[bad_mask], series[bad_mask])]. *)
Definition bad_issues (kind col : string) (mask : list bool)
    (series : list (cell number)) : list (issue number) :=
  map (λ iv, mk_issue kind col (Some iv))
      (zip (mask_select mask (seq 0 (length series))) (mask_select mask series)).

(** [.dt.date] after [pd.to_datetime] *)
Definition date_cells (coerced : list (option date)) : list (cell number) :=
  map (λ o, match o with Some d => Date d | None => NA end) coerced.

(** [coerced.astype("float64")] *)
Definition astype_float64 (coerced : list (option number)) : list (cell number) :=
  map (λ o, match o with Some x => Float x | None => NA end) coerced.

(** [coerced.astype("Int64")]: pandas casts only when every value that is
    present has an equal int64, and raises otherwise.  The exception is a
    [TypeError] for a finite value that is not integral (such as [3.7]); for
    an infinite value pandas raises [OverflowError].  The embedding has the
    one outcome [Raise TypeError] for a cast that fails, so it tells that the
    cast raises, and the class of the exception for finite values only. *)
Definition int64_castable (o : option number) : bool :=
  match o with
  | None => true
  | Some x => bool_decide (is_Some (safe_int64 x))
  end.

Definition astype_Int64 (coerced : list (option number))
  : outcome (list (cell number)) :=
  if forallb int64_castable coerced
  then Ok (map (λ o, match o ≫= safe_int64 with Some z => Int z | None => NA end)
               coerced)
  else Raise TypeError.

(** [str(v)] *)
Definition py_str (c : cell number) : string :=
  match c with Str s => s | _ => py_repr c end.

(** [series.astype("string")] *)
Definition astype_string (series : list (cell number)) : list (cell number) :=
  map (λ c, match c with NA => NA | _ => Str (py_str c) end) series.

(** ** The schema *)

(** A value of the [columns] dict: the Python type [str] or a dtype name. *)
Inductive dtype := PyStr | Named (name : string).

Definition columns : list (string * dtype) :=
  [ ("Plant", PyStr);
    ("Plant Code", Named "Int64");
    ("Date Delivered", Named "datetime64[D]");
    ("Date Returned", Named "datetime64[D]");
    ("Customer", PyStr);
    ("Customer Category", PyStr);
    ("Product", PyStr);
    ("Product Code", PyStr);
    ("Total Delivered (kgs)", Named "float64");
    ("Total Returned (kgs)", Named "float64");
    ("Reason of Return", PyStr);
    ("Return Category", PyStr);
    ("Accountability", PyStr);
    ("Validation", PyStr);
    ("Remarks", PyStr) ].

Definition required_columns : list string := columns.*1.

Definition allowed_validation_vals : list string := ["Valid"; "Invalid"].

(** [dtype in (name1, name2, ...)] *)
Definition dtype_in (d : dtype) (names : list string) : bool :=
  match d with
  | PyStr => false
  | Named n => bool_decide (n ∈ names)
  end.

(** ** [coerce_types] *)

(** The body of [for col, dtype in columns.items()], on the remaining items. *)
Fixpoint coerce_loop (df2 : loc) (items : list (string * dtype))
    (issues : list (issue number)) : Py (list (issue number)) :=
  match items with
  | [] => mret issues
  | (col, dtype) :: rest =>
      present ← df_has_column df2 col;
      if negb present then
        df_setitem_scalar df2 col NA;;
        coerce_loop df2 rest (issues ++ [mk_issue "missing_column" col None])
      else
        series ← df_getitem df2 col;
        if dtype_in dtype ["datetime64[ns]"; "datetime64[D]"] then
          let coerced := pd_to_datetime series in
          let mask := bad_mask coerced series in
          let issues := issues ++ bad_issues "bad_datetime" col mask series in
          df_setitem df2 col (date_cells coerced);;
          coerce_loop df2 rest issues
        else if dtype_in dtype ["float64"; "float"] then
          let coerced := pd_to_numeric series in
          let mask := bad_mask coerced series in
          let issues := issues ++ bad_issues "bad_float" col mask series in
          df_setitem df2 col (astype_float64 coerced);;
          coerce_loop df2 rest issues
        else if dtype_in dtype ["Int64"; "int64"; "Int32"] then
          let coerced := pd_to_numeric series in
          let mask := bad_mask coerced series in
          let issues := issues ++ bad_issues "bad_int" col mask series in
          match astype_Int64 coerced with
          | Ok vals => df_setitem df2 col vals;; coerce_loop df2 rest issues
          | Raise e => raise e
          end
        else
          df_setitem df2 col (astype_string series);;
          coerce_loop df2 rest issues
  end.

Definition coerce_types (df : loc) : Py (loc * list (issue number)) :=
  df2 ← df_copy df;
  issues ← coerce_loop df2 columns [];
  mret (df2, issues).

(** ** [validate_row_level] *)

(** A Python value that is a cell or [None]. *)
Definition isna_py (v : option (cell number)) : bool :=
  match v with Some c => isna c | None => true end.

Definition str_py (v : option (cell number)) : string :=
  match v with Some c => py_str c | None => "None" end.

(** [row.get(col)] for the row at position [idx] ([None] without the column);
    it is also [row[col]] and [df.at[idx, col]] where the column exists. *)
Definition row_get (df : frame number) (idx : nat) (col : string)
  : option (cell number) :=
  series ← get_col df col; series !! idx.

(** The body of [for idx, row in df.iterrows()]. *)
Definition validate_row (df : frame number) (source_file : string) (idx : nat)
  : list (finding number) :=
  flat_map (λ col,
      if negb (has_col df col) then
        [mk_finding None (Some (idx + 2)) (Some col) "column_missing" None
                    source_file]
      else
        let val := row_get df idx col in
        if isna_py val && negb (bool_decide (col ∈ ["Remarks"])) then
          [mk_finding (row_get df idx "Plant") (Some (idx + 2)) (Some col)
                      "missing_value" None source_file]
        else [])
    required_columns
  ++ (if has_col df "Validation" then
        let v := row_get df idx "Validation" in
        if negb (isna_py v)
           && negb (bool_decide (strip (str_py v) ∈ allowed_validation_vals))
        then [mk_finding (row_get df idx "Plant") (Some (idx + 2))
                         (Some "Validation") "invalid_value" v source_file]
        else []
      else [])
  ++ (if has_col df "Reason of Return" then
        let r := row_get df idx "Reason of Return" in
        if isna_py r || bool_decide (strip (str_py r) = "")
        then [mk_finding (row_get df idx "Plant") (Some (idx + 2))
                         (Some "Reason of Return") "missing_reason" r source_file]
        else []
      else []).

Definition validate_frame (df : frame number) (source_file : string)
  : list (finding number) :=
  flat_map (validate_row df source_file) (seq 0 (nrows df)).

Definition validate_row_level (df : loc) (source_file : string)
  : Py (list (finding number)) :=
  f ← load df; mret (validate_frame f source_file).

(** ** [main]: the ingestion loop and the two artifacts *)

(** A source of the batch: its path and what the Reader yields for it. *)
Definition source : Type := string * read_result number.

(** [safe_read(path)]: [(df, None)] or [(None, str(e))]. *)
Definition safe_read (src : source) : Py (option loc * option string) :=
  match src.2 with
  | ReadOk f => df ← alloc f; mret (Some df, None)
  | ReadErr e => mret (None, Some e)
  end.

(** [[str(c).strip() for c in df.columns]] as the new labels of a frame. *)
Definition strip_labels (f : frame number) : frame number :=
  {| nrows := nrows f; cols := map (λ cv, (strip cv.1, cv.2)) (cols f) |}.

(** [df.columns = [str(c).strip() for c in df.columns]] *)
Definition df_strip_columns (df : loc) : Py unit :=
  f ← load df; store df (strip_labels f).

(** The body of [for it in type_issues]. *)
Fixpoint report_type_issues (coerced_df : loc) (f : string)
    (type_issues : list (issue number)) (error_rows : list (finding number))
  : Py (list (finding number)) :=
  match type_issues with
  | [] => mret error_rows
  | it :: rest =>
      if String.eqb (ikind it) "missing_column" then
        report_type_issues coerced_df f rest
          (error_rows ++ [mk_finding None None (Some (icol it)) "missing_column"
                                     None f])
      else
        match irest it with
        | None => raise ValueError
        | Some (idx, val) =>
            cdf ← load coerced_df;
            plant_val ←
              (if has_col cdf (icol it) && Nat.ltb idx (nrows cdf) then
                 if has_col cdf "Plant" then
                   match row_get cdf idx "Plant" with
                   | Some c => mret (Some c)
                   | None => raise KeyError
                   end
                 else mret None
               else mret None);
            report_type_issues coerced_df f rest
              (error_rows ++ [mk_finding plant_val (Some (idx + 2))
                                         (Some (icol it)) (ikind it) (Some val) f])
        end
  end.

Definition read_error_finding (f : string) (err : option string)
  : finding number :=
  mk_finding None None None "read_error" (Str <$> err) f.

(** The body of [for f in files]: one source, with the two accumulators. *)
Definition process_source (src : source) (all_frames : list loc)
    (error_rows : list (finding number))
  : Py (list loc * list (finding number)) :=
  let f := src.1 in
  r ← safe_read src;
  match r.1 with
  | None => mret (all_frames, error_rows ++ [read_error_finding f r.2])
  | Some df_raw =>
      df_strip_columns df_raw;;
      ci ← coerce_types df_raw;
      let coerced_df := ci.1 in
      error_rows ← report_type_issues coerced_df f ci.2 error_rows;
      row_issues ← validate_row_level coerced_df f;
      let error_rows := error_rows ++ row_issues in
      df_setitem_scalar coerced_df "__source_file" (Str (basename f));;
      mret (all_frames ++ [coerced_df], error_rows)
  end.

(** [for f in files: ...] *)
Fixpoint main_loop (files : list source) (all_frames : list loc)
    (error_rows : list (finding number))
  : Py (list loc * list (finding number)) :=
  match files with
  | [] => mret (all_frames, error_rows)
  | src :: rest =>
      st ← process_source src all_frames error_rows;
      main_loop rest st.1 st.2
  end.

(** Column labels of [pd.concat(frames, sort=False)]: in order of first
    appearance. *)
Definition concat_labels (fs : list (frame number)) : list string :=
  fold_left (λ acc f, acc ++ list_difference (labels f) acc) fs [].

(** One column of the concatenation: each frame's values in turn, absent
    markers for a frame without the column. *)
Definition concat_col (fs : list (frame number)) (col : string)
  : list (cell number) :=
  flat_map (λ f, match get_col f col with
                 | Some v => v
                 | None => replicate (nrows f) NA
                 end) fs.

(** [pd.concat(frames, ignore_index=True, sort=False)] *)
Definition pd_concat (fs : list (frame number)) : outcome (frame number) :=
  match fs with
  | [] => Raise ValueError
  | _ => Ok {| nrows := sum_list (nrows <$> fs);
               cols := map (λ c, (c, concat_col fs c)) (concat_labels fs) |}
  end.

(** [pd.DataFrame(columns=required_columns)] *)
Definition empty_master : frame number :=
  {| nrows := 0; cols := map (λ c, (c, [])) required_columns |}.

Fixpoint load_all (ls : list loc) : Py (list (frame number)) :=
  match ls with
  | [] => mret []
  | l :: r => f ← load l; fs ← load_all r; mret (f :: fs)
  end.

(** [main], from the listing of the input files to the writing of the two
    artifacts (source lines 142-188).  [Ok] carries what is written: the
    master workbook and the error report.  It does not say that the source
    function returns: after the artifacts [main] opens the files and draws
    the charts, and can raise there. *)
Definition main (files : list source) : Py (outputs number) :=
  match files with
  | [] => mret (mk_outputs None None)
  | _ =>
      fe ← main_loop files [] [];
      master ←
        (match fe.1 with
         | [] => mret empty_master
         | _ => fs ← load_all fe.1;
                match pd_concat fs with
                | Ok m => mret m
                | Raise e => raise e
                end
         end);
      mret (mk_outputs (Some master)
                       (match fe.2 with [] => None | _ => Some fe.2 end))
  end.

(** ** The pipeline as functions of frames

    What the heap computations above do to the one frame they work on; the
    run lemmas below ([coerce_loop_run], [coerce_types_run],
    [report_type_issues_run], [main_loop_ok]) relate the two. *)

(** One present column: its new values and the issues it adds. *)
Definition coerce_series (col : string) (dtype : dtype)
    (series : list (cell number))
  : outcome (list (cell number) * list (issue number)) :=
  if dtype_in dtype ["datetime64[ns]"; "datetime64[D]"] then
    let coerced := pd_to_datetime series in
    Ok (date_cells coerced,
        bad_issues "bad_datetime" col (bad_mask coerced series) series)
  else if dtype_in dtype ["float64"; "float"] then
    let coerced := pd_to_numeric series in
    Ok (astype_float64 coerced,
        bad_issues "bad_float" col (bad_mask coerced series) series)
  else if dtype_in dtype ["Int64"; "int64"; "Int32"] then
    let coerced := pd_to_numeric series in
    match astype_Int64 coerced with
    | Ok vals =>
        Ok (vals, bad_issues "bad_int" col (bad_mask coerced series) series)
    | Raise e => Raise e
    end
  else Ok (astype_string series, []).

(** One schema column, given the row count and the column's current values
    ([None] when the frame lacks it): its new values and the issues it adds. *)
Definition coerce_col (n : nat) (current : option (list (cell number)))
    (col : string) (dtype : dtype)
  : outcome (list (cell number) * list (issue number)) :=
  match current with
  | None => Ok (replicate n NA, [mk_issue "missing_column" col None])
  | Some series => coerce_series col dtype series
  end.

(** One schema item on the frame under construction. *)
Definition coerce_item (f : frame number) (item : string * dtype)
  : outcome (frame number * list (issue number)) :=
  match coerce_col (nrows f) (get_col f item.1) item.1 item.2 with
  | Ok vi => Ok (set_col f item.1 vi.1, vi.2)
  | Raise e => Raise e
  end.

(** The issues one schema item adds ([[]] when its conversion raises). *)
Definition item_issues (f : frame number) (item : string * dtype)
  : list (issue number) :=
  match coerce_col (nrows f) (get_col f item.1) item.1 item.2 with
  | Ok vi => vi.2
  | Raise _ => []
  end.

(** The loop of [coerce_types] on the frame: the outcome and the frame as the
    loop leaves it (also when it raises). *)
Fixpoint coerce_frame (items : list (string * dtype)) (f : frame number)
    (issues : list (issue number))
  : outcome (list (issue number)) * frame number :=
  match items with
  | [] => (Ok issues, f)
  | item :: rest =>
      match coerce_item f item with
      | Ok fi => coerce_frame rest fi.1 (issues ++ fi.2)
      | Raise e => (Raise e, f)
      end
  end.

(** The loop over [type_issues], reading the coerced frame [cdf]. *)
Fixpoint report_issues_frame (cdf : frame number) (f : string)
    (type_issues : list (issue number)) (error_rows : list (finding number))
  : outcome (list (finding number)) :=
  match type_issues with
  | [] => Ok error_rows
  | it :: rest =>
      if String.eqb (ikind it) "missing_column" then
        report_issues_frame cdf f rest
          (error_rows ++ [mk_finding None None (Some (icol it)) "missing_column"
                                     None f])
      else
        match irest it with
        | None => Raise ValueError
        | Some (idx, val) =>
            let plant :=
              if has_col cdf (icol it) && Nat.ltb idx (nrows cdf) then
                if has_col cdf "Plant" then
                  match row_get cdf idx "Plant" with
                  | Some c => Ok (Some c)
                  | None => Raise KeyError
                  end
                else Ok None
              else Ok None in
            match plant with
            | Ok plant_val =>
                report_issues_frame cdf f rest
                  (error_rows ++ [mk_finding plant_val (Some (idx + 2))
                                    (Some (icol it)) (ikind it) (Some val) f])
            | Raise e => Raise e
            end
        end
  end.

(** [coerced_df["__source_file"] = os.path.basename(f)] *)
Definition tag_source (cdf : frame number) (f : string) : frame number :=
  set_col cdf "__source_file" (replicate (nrows cdf) (Str (basename f))).

(** One loaded source: the coerced table as it enters [all_frames] and the
    findings it adds to [error_rows]. *)
Definition ingest_frame (f : string) (raw : frame number)
  : outcome (frame number * list (finding number)) :=
  match coerce_frame columns (strip_labels raw) [] with
  | (Ok type_issues, cdf) =>
      match report_issues_frame cdf f type_issues [] with
      | Ok errs => Ok (tag_source cdf f, errs ++ validate_frame cdf f)
      | Raise e => Raise e
      end
  | (Raise e, _) => Raise e
  end.

(** The sources of a batch that load, in batch order. *)
Definition loaded (files : list source) : list (string * frame number) :=
  flat_map (λ src, match src.2 with
                   | ReadOk raw => [(src.1, raw)]
                   | ReadErr _ => []
                   end) files.

(** The whole loop of [main]: the coerced tables in [all_frames] order and
    the findings in [error_rows] order. *)
Fixpoint ingest_batch (files : list source)
  : outcome (list (frame number) * list (finding number)) :=
  match files with
  | [] => Ok ([], [])
  | src :: rest =>
      match src.2 with
      | ReadErr e =>
          match ingest_batch rest with
          | Ok tf => Ok (tf.1, read_error_finding src.1 (Some e) :: tf.2)
          | Raise x => Raise x
          end
      | ReadOk raw =>
          match ingest_frame src.1 raw with
          | Ok t1 =>
              match ingest_batch rest with
              | Ok tf => Ok (t1.1 :: tf.1, t1.2 ++ tf.2)
              | Raise x => Raise x
              end
          | Raise x => Raise x
          end
      end
  end.

(** The Finding kinds of section 7 of the specification. *)
Definition spec_error_kinds : list string :=
  ["read_error"; "missing_column"; "bad_date"; "bad_float"; "bad_int";
   "missing_value"; "invalid_value"; "missing_reason"].

(** ** Preconditions used by the properties below *)

(** Every column holds one value per row, as in any pandas DataFrame. *)
Definition rectangular (f : frame number) : Prop :=
  Forall (λ cv, length cv.2 = nrows f) (cols f).


(** The dict [main] appends to [error_rows] for one tuple of [type_issues]
    (for a tuple the loop can unpack). *)
Definition issue_finding (cdf : frame number) (f : string) (it : issue number)
  : finding number :=
  if String.eqb (ikind it) "missing_column" then
    mk_finding None None (Some (icol it)) "missing_column" None f
  else
    mk_finding
      (match irest it with
       | Some (idx, _) =>
           if has_col cdf (icol it) && Nat.ltb idx (nrows cdf) then
             if has_col cdf "Plant" then row_get cdf idx "Plant" else None
           else None
       | None => None
       end)
      ((λ iv, iv.1 + 2) <$> irest it) (Some (icol it)) (ikind it)
      (snd <$> irest it) f.

End Model.


(** ** A reference instance of the pandas primitives

    Element-wise conversions over plain decimal literals ([-12], [3.7]) and
    ISO dates ([2024-01-31]); enough to evaluate the pipeline on explicit
    tables. *)

(** A decimal literal: [mant / 10^scale]. *)
Record decimal := mk_decimal { mant : Z; scale : nat }.

Definition digit_of (a : ascii) : option Z :=
  let n := nat_of_ascii a in
  if Nat.leb 48 n && Nat.leb n 57 then Some (Z.of_nat (n - 48)) else None.

(** Reads a run of digits: the accumulated value, how many digits were read,
    and the rest of the string. *)
Fixpoint read_digits (s : string) (acc : Z) (cnt : nat) : Z * nat * string :=
  match s with
  | EmptyString => (acc, cnt, s)
  | String a s' =>
      match digit_of a with
      | Some d => read_digits s' (acc * 10 + d)%Z (S cnt)
      | None => (acc, cnt, s)
      end
  end.

Definition parse_decimal (s : string) : option decimal :=
  let (neg, body) :=
    match s with
    | String "-"%char r => (true, r)
    | _ => (false, s)
    end in
  let sign (z : Z) := if neg then (- z)%Z else z in
  let '(ip, n1, rest) := read_digits body 0%Z 0 in
  if Nat.eqb n1 0 then None
  else match rest with
       | EmptyString => Some (mk_decimal (sign ip) 0)
       | String "."%char frac =>
           let '(m, n2, rest2) := read_digits frac ip 0 in
           match rest2 with
           | EmptyString => Some (mk_decimal (sign m) n2)
           | _ => None
           end
       | _ => None
       end.

Definition parse_iso_date (s : string) : option date :=
  let '(y, n1, r1) := read_digits s 0%Z 0 in
  match r1 with
  | String "-"%char r1' =>
      let '(m, n2, r2) := read_digits r1' 0%Z 0 in
      match r2 with
      | String "-"%char r2' =>
          let '(d, n3, r3) := read_digits r2' 0%Z 0 in
          match r3 with
          | EmptyString =>
              if Nat.eqb n1 4 && Nat.eqb n2 2 && Nat.eqb n3 2
                 && Z.leb 1 m && Z.leb m 12 && Z.leb 1 d && Z.leb d 31
              then Some (mk_date y m d) else None
          | _ => None
          end
      | _ => None
      end
  | _ => None
  end.

Definition ref_to_numeric (c : cell decimal) : option decimal :=
  match c with
  | Str s => parse_decimal s
  | Int z => Some (mk_decimal z 0)
  | Float x => Some x
  | _ => None
  end.

Definition ref_to_datetime (c : cell decimal) : option date :=
  match c with
  | Str s => parse_iso_date s
  | Date d => Some d
  | _ => None
  end.

Definition ref_safe_int64 (x : decimal) : option Z :=
  let p := (10 ^ Z.of_nat (scale x))%Z in
  let q := (mant x / p)%Z in
  if Z.eqb (mant x mod p) 0 && Z.leb (- 2 ^ 63) q && Z.ltb q (2 ^ 63)
  then Some q else None.

Definition ref_repr (c : cell decimal) : string :=
  match c with
  | NA => "<NA>"
  | Str s => s
  | _ => "?"
  end.

#[export] Program Instance ref_pandas : Pandas := {|
  number := decimal;
  pd_to_numeric := map ref_to_numeric;
  pd_to_datetime := map ref_to_datetime;
  safe_int64 := ref_safe_int64;
  py_repr := ref_repr
|}.
Next Obligation. intros s. apply length_map. Qed.
Next Obligation. intros s. apply length_map. Qed.


(** ** Example tables *)

(** Two rows, an unknown column, a header with trailing blank, a bad date, a
    bad decimal and a blank reason. *)
Definition table_a : frame decimal :=
  mk_frame 2
    [ ("Plant ", [Str "Plant1"; Str "Plant2"]);
      ("Plant Code", [Str "3"; NA]);
      ("Date Delivered", [Str "2024-01-31"; Str "soon"]);
      ("Extra", [Str "x"; Str "y"]);
      ("Total Delivered (kgs)", [Str "3.7"; Str "abc"]);
      ("Reason of Return", [Str "  "; NA]) ].

(** One row whose integer column holds a non-integral number. *)
Definition table_b : frame decimal :=
  mk_frame 1 [ ("Plant Code", [Str "3.7"]) ].

(** One row with a column the schema does not know. *)
Definition table_extra : frame decimal :=
  mk_frame 1 [ ("Plant", [Str "Plant1"]); ("Extra", [Str "x"]) ].

(** One row whose delivery date is not a date. *)
Definition table_date : frame decimal :=
  mk_frame 1 [ ("Plant", [Str "Plant1"]); ("Date Delivered", [Str "soon"]) ].

(** Two rows: a reason of blanks only, and no reason at all. *)
Definition table_reason : frame decimal :=
  mk_frame 2 [ ("Plant", [Str "Plant1"; Str "Plant2"]);
               ("Reason of Return", [Str "  "; NA]) ].

(** Two rows: a value of "Validation" outside the allowed set, and an
    allowed one with blanks around it. *)
Definition table_validation : frame decimal :=
  mk_frame 2 [ ("Plant", [Str "Plant1"; Str "Plant2"]);
               ("Validation", [Str "maybe"; Str " Valid "]) ].

(** Sources over those tables. *)
Definition src_a : @source ref_pandas := ("dir/a.csv", ReadOk table_a).
Definition src_b : @source ref_pandas := ("b.csv", ReadOk table_b).
Definition src_extra : @source ref_pandas := ("extra.csv", ReadOk table_extra).
Definition src_reason : @source ref_pandas :=
  ("reason.csv", ReadOk table_reason).
Definition src_unreadable : @source ref_pandas :=
  ("c.csv", ReadErr "unreadable").

(** * Properties *)

Section Proofs.
Context `{Pandas}.

Implicit Types (f g : frame number) (h : heap) (col : string).

(** ** Association lists of columns *)

Lemma assoc_None {V} k (l : list (string * V)) : assoc k l = None ↔ k ∉ l.*1.
Proof.
  induction l as [|[k' v] l IH]; simpl.
  - split; [intros _; apply not_elem_of_nil | done].
  - destruct (decide (k' = k)) as [->|Hne].
    + split; [done | intros Hn; exfalso; apply Hn; left].
    + rewrite IH, not_elem_of_cons.
      split; [intros ?; split; [congruence | done] | by intros [_ ?]].
Qed.

Lemma assoc_is_Some {V} k (l : list (string * V)) : is_Some (assoc k l) ↔ k ∈ l.*1.
Proof.
  rewrite <- not_eq_None_Some, assoc_None.
  destruct (decide (k ∈ l.*1)); naive_solver.
Qed.

Lemma assoc_set_eq {V} k (v : V) l : assoc k (assoc_set k v l) = Some v.
Proof.
  induction l as [|[k' v'] l IH]; simpl.
  - by rewrite decide_True.
  - destruct (decide (k' = k)) as [->|Hne]; simpl.
    + by rewrite decide_True.
    + by rewrite decide_False.
Qed.

Lemma assoc_set_ne {V} k k' (v : V) l :
  k ≠ k' → assoc k' (assoc_set k v l) = assoc k' l.
Proof.
  intros Hne. induction l as [|[k0 v0] l IH]; simpl.
  - by rewrite decide_False.
  - destruct (decide (k0 = k)) as [->|Hk]; simpl.
    + by rewrite !decide_False.
    + destruct (decide (k0 = k')); [done | apply IH].
Qed.

Lemma assoc_set_labels {V} k (v : V) l :
  (assoc_set k v l).*1 = l.*1 ++ (if decide (k ∈ l.*1) then [] else [k]).
Proof.
  induction l as [|[k0 v0] l IH]; csimpl.
  - done.
  - destruct (decide (k0 = k)) as [->|Hk]; csimpl.
    + destruct (decide (k ∈ k :: l.*1)) as [_|Hn];
        [by rewrite app_nil_r | exfalso; apply Hn; left].
    + rewrite IH. f_equal. f_equal.
      destruct (decide (k ∈ l.*1)) as [Hin|Hin];
        destruct (decide (k ∈ k0 :: l.*1)) as [Hin'|Hin']; try done.
      * exfalso. apply Hin'. by right.
      * apply elem_of_cons in Hin' as [?|?]; [congruence | done].
Qed.

Lemma has_col_true f col : has_col f col = true ↔ col ∈ labels f.
Proof. unfold has_col. by rewrite bool_decide_eq_true. Qed.

Lemma has_col_get f col : has_col f col = true ↔ is_Some (get_col f col).
Proof. rewrite has_col_true. unfold get_col, labels. by rewrite assoc_is_Some. Qed.

Lemma has_col_false_get f col : has_col f col = false ↔ get_col f col = None.
Proof.
  unfold has_col, get_col. rewrite bool_decide_eq_false, assoc_None. done.
Qed.

Lemma get_set_col_eq f col vals : get_col (set_col f col vals) col = Some vals.
Proof. apply assoc_set_eq. Qed.

Lemma get_set_col_ne f col col' vals :
  col ≠ col' → get_col (set_col f col vals) col' = get_col f col'.
Proof. apply assoc_set_ne. Qed.

Lemma labels_set_col f col vals :
  labels (set_col f col vals)
  = labels f ++ (if decide (col ∈ labels f) then [] else [col]).
Proof. apply assoc_set_labels. Qed.

(** ** The heap computations run as the frame functions *)

Lemma bind_run {A B} (m : Py A) (k : A → Py B) h :
  (m ≫= k) h
  = match m h with
    | (Ok a, h') => k a h'
    | (Raise e, h') => (Raise e, h')
    end.
Proof. reflexivity. Qed.

Lemma load_run l h f : h !! l = Some f → load l h = (Ok f, h).
Proof. intros Hf. unfold load. by rewrite Hf. Qed.

Lemma df_has_column_run l col h f :
  h !! l = Some f → df_has_column l col h = (Ok (has_col f col), h).
Proof.
  intros Hf. unfold df_has_column. by rewrite bind_run, (load_run l h f).
Qed.

Lemma df_getitem_run l col h f series :
  h !! l = Some f → get_col f col = Some series →
  df_getitem l col h = (Ok series, h).
Proof.
  intros Hf Hs. unfold df_getitem.
  rewrite bind_run, (load_run l h f) by done. by rewrite Hs.
Qed.

Lemma df_setitem_run l col vals h f :
  h !! l = Some f →
  df_setitem l col vals h = (Ok tt, <[l := set_col f col vals]> h).
Proof.
  intros Hf. unfold df_setitem. by rewrite bind_run, (load_run l h f).
Qed.

Lemma df_setitem_scalar_run l col v h f :
  h !! l = Some f →
  df_setitem_scalar l col v h
  = (Ok tt, <[l := set_col f col (replicate (nrows f) v)]> h).
Proof.
  intros Hf. unfold df_setitem_scalar. by rewrite bind_run, (load_run l h f).
Qed.

Lemma coerce_loop_run items : ∀ df2 issues h f,
  h !! df2 = Some f →
  coerce_loop df2 items issues h
  = ((coerce_frame items f issues).1,
     <[df2 := (coerce_frame items f issues).2]> h).
Proof.
  induction items as [|[col dt] rest IH]; intros df2 issues h f Hf.
  - cbn [coerce_loop coerce_frame fst snd]. by rewrite list_insert_id.
  - assert (Hlt : df2 < length h) by (eapply lookup_lt_Some; eauto).
    assert (Hnext : ∀ f' iss,
      coerce_loop df2 rest iss (<[df2:=f']> h)
      = ((coerce_frame rest f' iss).1,
         <[df2 := (coerce_frame rest f' iss).2]> h)).
    { intros f' iss. rewrite (IH df2 iss _ f').
      - by rewrite list_insert_insert_eq.
      - by apply list_lookup_insert_eq. }
    cbn [coerce_loop coerce_frame]. unfold coerce_item, coerce_col. cbn [fst snd].
    rewrite bind_run, (df_has_column_run df2 col h f) by done.
    destruct (get_col f col) as [series|] eqn:Hget.
    + assert (Hhas : has_col f col = true)
        by (apply has_col_get; rewrite Hget; eauto).
      rewrite Hhas. cbn [negb].
      rewrite bind_run, (df_getitem_run df2 col h f series) by done.
      unfold coerce_series.
      destruct (dtype_in dt ["datetime64[ns]"; "datetime64[D]"]).
      { rewrite bind_run, (df_setitem_run df2 col _ h f) by done.
        apply Hnext. }
      destruct (dtype_in dt ["float64"; "float"]).
      { rewrite bind_run, (df_setitem_run df2 col _ h f) by done.
        apply Hnext. }
      destruct (dtype_in dt ["Int64"; "int64"; "Int32"]).
      { destruct (astype_Int64 (pd_to_numeric series)) as [vals|e].
        - rewrite bind_run, (df_setitem_run df2 col _ h f) by done.
          apply Hnext.
        - unfold raise. cbn [fst snd]. by rewrite list_insert_id. }
      rewrite bind_run, (df_setitem_run df2 col _ h f) by done.
      cbn [fst snd]. rewrite app_nil_r. apply Hnext.
    + assert (Hhas : has_col f col = false) by (by apply has_col_false_get).
      rewrite Hhas. cbn [negb].
      rewrite bind_run, (df_setitem_scalar_run df2 col _ h f) by done.
      apply Hnext.
Qed.

Lemma coerce_types_run df h f :
  h !! df = Some f →
  coerce_types df h
  = (match (coerce_frame columns f []).1 with
     | Ok issues => Ok (length h, issues)
     | Raise e => Raise e
     end,
     h ++ [(coerce_frame columns f []).2]).
Proof.
  intros Hf. unfold coerce_types, df_copy.
  rewrite !bind_run, (load_run df h f) by done.
  unfold alloc. rewrite bind_run.
  rewrite (coerce_loop_run columns (length h) [] (h ++ [f]) f)
    by (by apply list_lookup_middle).
  replace (<[length h:=(coerce_frame columns f []).2]> (h ++ [f]))
    with (h ++ [(coerce_frame columns f []).2]).
  - by destruct (coerce_frame columns f []) as [[iss|e] f'].
  - pose proof (insert_app_r h [f] 0 (coerce_frame columns f []).2) as E.
    rewrite Nat.add_0_r in E. by rewrite E.
Qed.

(** ** What the coercion loop does to the frame *)

Lemma columns_NoDup : NoDup columns.*1.
Proof. apply (bool_decide_unpack (NoDup columns.*1)). vm_compute. exact I. Qed.

Lemma coerce_item_Ok f item fi :
  coerce_item f item = Ok fi →
  ∃ vi, coerce_col (nrows f) (get_col f item.1) item.1 item.2 = Ok vi
        ∧ fi = (set_col f item.1 vi.1, vi.2).
Proof.
  unfold coerce_item.
  destruct (coerce_col _ _ _ _) as [vi|e]; [|done].
  intros [= <-]. eauto.
Qed.

Lemma coerce_frame_nrows items : ∀ f iss iss' f',
  coerce_frame items f iss = (Ok iss', f') → nrows f' = nrows f.
Proof.
  induction items as [|item rest IH]; intros f iss iss' f'; cbn [coerce_frame].
  - by intros [= _ <-].
  - destruct (coerce_item f item) as [fi|e] eqn:Hi; [|done].
    apply coerce_item_Ok in Hi as (vi & _ & ->).
    intros Hrest. by apply IH in Hrest.
Qed.

Lemma coerce_frame_other items : ∀ f iss iss' f' col,
  coerce_frame items f iss = (Ok iss', f') →
  col ∉ items.*1 → get_col f' col = get_col f col.
Proof.
  induction items as [|item rest IH]; intros f iss iss' f' col;
    cbn [coerce_frame].
  - by intros [= _ <-].
  - destruct (coerce_item f item) as [fi|e] eqn:Hi; [|done].
    apply coerce_item_Ok in Hi as (vi & _ & ->).
    intros Hrest Hnot. csimpl in Hnot. apply not_elem_of_cons in Hnot as [Hne Hnot].
    rewrite (IH _ _ _ _ col Hrest Hnot). cbn [fst].
    by apply get_set_col_ne.
Qed.

Lemma filter_agree {A} (P Q : A → Prop)
    `{!∀ x, Decision (P x), !∀ x, Decision (Q x)} (l : list A) :
  (∀ x, x ∈ l → P x ↔ Q x) → filter P l = filter Q l.
Proof.
  induction l as [|a l IH]; intros Hiff; [done |].
  rewrite !filter_cons.
  rewrite IH by (intros x Hx; apply Hiff; by right).
  destruct (decide (P a)) as [Hp|Hp], (decide (Q a)) as [Hq|Hq]; try done.
  - exfalso. apply Hq, Hiff; [left | done].
  - exfalso. apply Hp, Hiff; [left | done].
Qed.

Lemma coerce_frame_labels items : ∀ f iss iss' f',
  NoDup items.*1 →
  coerce_frame items f iss = (Ok iss', f') →
  labels f' = labels f ++ filter (λ c, c ∉ labels f) items.*1.
Proof.
  induction items as [|item rest IH]; intros f iss iss' f' Hnd;
    cbn [coerce_frame].
  - intros [= _ <-]. by rewrite app_nil_r.
  - destruct (coerce_item f item) as [fi|e] eqn:Hi; [|done].
    apply coerce_item_Ok in Hi as (vi & _ & ->).
    csimpl in Hnd. apply NoDup_cons in Hnd as [Hfresh Hnd].
    intros Hrest. rewrite (IH _ _ _ _ Hnd Hrest). cbn [fst].
    rewrite labels_set_col. csimpl. rewrite filter_cons.
    assert (Hsame : filter (λ c, c ∉ labels f ++
                       (if decide (item.1 ∈ labels f) then [] else [item.1]))
                      rest.*1
                    = filter (λ c, c ∉ labels f) rest.*1).
    { apply filter_agree. intros c Hc.
      destruct (decide (item.1 ∈ labels f)).
      - by rewrite app_nil_r.
      - rewrite not_elem_of_app, not_elem_of_cons.
        split; [tauto |]. intros Hn. split; [done |].
        split; [|apply not_elem_of_nil]. intros ->. done. }
    rewrite Hsame.
    destruct (decide (item.1 ∈ labels f)) as [Hin|Hin].
    + rewrite decide_False by tauto. by rewrite app_nil_r.
    + rewrite decide_True by done. by rewrite <- app_assoc.
Qed.

Lemma coerce_frame_col items : ∀ f iss iss' f' col dt,
  NoDup items.*1 →
  coerce_frame items f iss = (Ok iss', f') →
  (col, dt) ∈ items →
  ∃ vi, coerce_col (nrows f) (get_col f col) col dt = Ok vi
        ∧ get_col f' col = Some vi.1.
Proof.
  induction items as [|item rest IH]; intros f iss iss' f' col dt Hnd;
    cbn [coerce_frame].
  - intros _ Hin. by apply elem_of_nil in Hin.
  - destruct (coerce_item f item) as [fi|e] eqn:Hi; [|done].
    apply coerce_item_Ok in Hi as (vi & Hvi & ->).
    csimpl in Hnd. apply NoDup_cons in Hnd as [Hfresh Hnd].
    cbn [fst snd]. intros Hrest Hin.
    apply elem_of_cons in Hin as [<-|Hin].
    + exists vi. split; [done |].
      rewrite (coerce_frame_other _ _ _ _ _ col Hrest Hfresh).
      apply get_set_col_eq.
    + assert (Hne : item.1 ≠ col).
      { intros Heq. apply Hfresh. rewrite Heq.
        apply list_elem_of_fmap. by exists (col, dt). }
      destruct (IH _ _ _ _ col dt Hnd Hrest Hin) as (vi' & Hvi' & Hget).
      exists vi'. split; [|done].
      by rewrite get_set_col_ne in Hvi'.
Qed.

Lemma item_issues_set_col f col vals item :
  col ≠ item.1 → item_issues (set_col f col vals) item = item_issues f item.
Proof.
  intros Hne. unfold item_issues. by rewrite get_set_col_ne.
Qed.

Lemma flat_map_agree {A B} (k1 k2 : A → list B) (l : list A) :
  (∀ x, x ∈ l → k1 x = k2 x) → flat_map k1 l = flat_map k2 l.
Proof.
  induction l as [|a l IH]; intros Heq; [done |].
  cbn [flat_map]. rewrite (Heq a) by left.
  by rewrite IH by (intros x Hx; apply Heq; by right).
Qed.

Lemma coerce_frame_issues items : ∀ f iss iss' f',
  NoDup items.*1 →
  coerce_frame items f iss = (Ok iss', f') →
  iss' = iss ++ flat_map (item_issues f) items.
Proof.
  induction items as [|item rest IH]; intros f iss iss' f' Hnd;
    cbn [coerce_frame].
  - intros [= <- _]. by rewrite app_nil_r.
  - destruct (coerce_item f item) as [fi|e] eqn:Hi; [|done].
    apply coerce_item_Ok in Hi as (vi & Hvi & ->).
    csimpl in Hnd. apply NoDup_cons in Hnd as [Hfresh Hnd].
    cbn [fst snd]. intros Hrest.
    rewrite (IH _ _ _ _ Hnd Hrest), <- app_assoc. f_equal.
    cbn [flat_map]. unfold item_issues at 2. rewrite Hvi. f_equal.
    apply flat_map_agree. intros it Hit.
    apply item_issues_set_col. intros Heq. apply Hfresh. rewrite Heq.
    apply list_elem_of_fmap. by exists it.
Qed.

Lemma elem_of_flat_map {A B} (k : A → list B) (l : list A) (y : B) :
  y ∈ flat_map k l ↔ ∃ x, x ∈ l ∧ y ∈ k x.
Proof.
  rewrite list_elem_of_In, in_flat_map.
  split; intros (x & Hx & Hy); exists x.
  - by rewrite !list_elem_of_In.
  - by rewrite <- !list_elem_of_In.
Qed.

Lemma coerce_types_Ok_inv df h f l iss h' :
  h !! df = Some f →
  coerce_types df h = (Ok (l, iss), h') →
  ∃ g, coerce_frame columns f [] = (Ok iss, g)
       ∧ l = length h ∧ h' = h ++ [g] ∧ h' !! l = Some g.
Proof.
  intros Hf. rewrite (coerce_types_run df h f Hf).
  destruct (coerce_frame columns f []) as [[iss0|e] g]; cbn [fst snd]; [|done].
  intros [= <- <- <-]. exists g. repeat split.
  by apply list_lookup_middle.
Qed.

Lemma required_item c : c ∈ required_columns → ∃ dt, (c, dt) ∈ columns.
Proof.
  unfold required_columns. rewrite list_elem_of_fmap.
  intros ([c' dt] & -> & Hin). by exists dt.
Qed.

Lemma coerce_frame_required f iss g c :
  coerce_frame columns f [] = (Ok iss, g) →
  c ∈ required_columns → c ∈ labels g.
Proof.
  intros Hg Hc.
  rewrite (coerce_frame_labels columns f [] iss g columns_NoDup Hg).
  rewrite elem_of_app, list_elem_of_filter.
  destruct (decide (c ∈ labels f)); [by left | by right].
Qed.

(** ** C10: [coerce_types] works on a copy *)

(** C10.  [coerce_types] does not mutate its input: whatever the raw table
    holds, and whether the call returns or raises, the object passed in (and
    every other DataFrame alive before the call) is the same frame
    afterwards; the coerced table is a new object. *)
Theorem coerce_types_leaves_input df h f :
  h !! df = Some f →
  (coerce_types df h).2 !! df = Some f
  ∧ (∀ l g, h !! l = Some g → (coerce_types df h).2 !! l = Some g)
  ∧ length (coerce_types df h).2 = S (length h).
Proof.
  intros Hf. rewrite (coerce_types_run df h f Hf). cbn [snd].
  assert (Hkeep : ∀ l g, h !! l = Some g →
            (h ++ [(coerce_frame columns f []).2]) !! l = Some g).
  { intros l g Hl. rewrite lookup_app_l; [done |]. by eapply lookup_lt_Some. }
  split; [by apply Hkeep |]. split; [done |].
  rewrite length_app. simpl. lia.
Qed.

(** ** C1: the columns of the coerced table *)

(** C1 (amended).  When [coerce_types] returns, the coerced table has the raw
    table's columns, in their order, followed by the schema columns the raw
    table lacks, in schema order.  So every schema column is present; a
    schema column the raw table lacks is absent in every row and is reported
    as [missing_column]; a column outside the schema is kept as it was. *)
Theorem coerce_types_columns df h f l iss h' :
  h !! df = Some f →
  coerce_types df h = (Ok (l, iss), h') →
  ∃ g, h' !! l = Some g
    ∧ nrows g = nrows f
    ∧ labels g = labels f ++ filter (λ c, c ∉ labels f) required_columns
    ∧ (∀ c, c ∈ required_columns → c ∈ labels g)
    ∧ (∀ c, c ∈ required_columns → c ∉ labels f →
         get_col g c = Some (replicate (nrows f) NA)
         ∧ mk_issue "missing_column" c None ∈ iss)
    ∧ (∀ c, c ∉ required_columns → get_col g c = get_col f c).
Proof.
  intros Hf Hrun.
  destruct (coerce_types_Ok_inv _ _ _ _ _ _ Hf Hrun) as (g & Hg & _ & _ & Hl).
  assert (Hlab :
    labels g = labels f ++ filter (λ c, c ∉ labels f) required_columns)
    by (by apply (coerce_frame_labels columns f [] iss g columns_NoDup)).
  exists g. split; [done |].
  split; [by apply (coerce_frame_nrows columns f [] iss) |].
  split; [done |]. split; [|split].
  - intros c Hc. by apply (coerce_frame_required f iss).
  - intros c Hc Hnot. destruct (required_item c Hc) as [dt Hdt].
    assert (Hnone : get_col f c = None) by (by apply assoc_None).
    destruct (coerce_frame_col columns f [] iss g c dt columns_NoDup Hg Hdt)
      as (vi & Hvi & Hget).
    rewrite Hnone in Hvi. cbn [coerce_col] in Hvi. injection Hvi as <-.
    split; [done |].
    rewrite (coerce_frame_issues columns f [] iss g columns_NoDup Hg).
    cbn [app]. apply elem_of_flat_map. exists (c, dt). split; [done |].
    unfold item_issues. cbn [fst snd]. rewrite Hnone. cbn [coerce_col snd].
    by left.
  - intros c Hc. by apply (coerce_frame_other columns f [] iss g c Hg).
Qed.

(** ** C9: validation after coercion *)

Lemma validate_frame_no_column_missing df src r :
  (∀ c, c ∈ required_columns → has_col df c = true) →
  r ∈ validate_frame df src → f_issue r ≠ "column_missing".
Proof.
  intros Hall. unfold validate_frame. rewrite elem_of_flat_map.
  intros (idx & _ & Hr). unfold validate_row in Hr.
  rewrite !elem_of_app in Hr. destruct Hr as [Hr|[Hr|Hr]].
  - apply elem_of_flat_map in Hr as (c & Hc & Hr).
    rewrite (Hall c Hc) in Hr. cbn [negb] in Hr.
    destruct (isna_py _ && _); [|by apply elem_of_nil in Hr].
    apply list_elem_of_singleton in Hr as ->. done.
  - destruct (has_col df "Validation"); [|by apply elem_of_nil in Hr].
    destruct (negb _ && _); [|by apply elem_of_nil in Hr].
    apply list_elem_of_singleton in Hr as ->. done.
  - destruct (has_col df "Reason of Return"); [|by apply elem_of_nil in Hr].
    destruct (isna_py _ || _); [|by apply elem_of_nil in Hr].
    apply list_elem_of_singleton in Hr as ->. done.
Qed.

(** C9.  On the table [coerce_types] returns, [validate_row_level] never takes
    the [column_missing] branch: every required column is in the table, so no
    finding of that kind is produced. *)
Theorem validate_after_coerce_no_column_missing df h f l iss h' src :
  h !! df = Some f →
  coerce_types df h = (Ok (l, iss), h') →
  ∃ g, h' !! l = Some g
    ∧ (∀ c, c ∈ required_columns → has_col g c = true)
    ∧ validate_row_level l src h' = (Ok (validate_frame g src), h')
    ∧ ∀ r, r ∈ validate_frame g src → f_issue r ≠ "column_missing".
Proof.
  intros Hf Hrun.
  destruct (coerce_types_Ok_inv _ _ _ _ _ _ Hf Hrun) as (g & Hg & _ & _ & Hl).
  assert (Hall : ∀ c, c ∈ required_columns → has_col g c = true)
    by (intros c Hc; by apply has_col_true, (coerce_frame_required f iss)).
  exists g. split; [done |]. split; [done |]. split.
  - unfold validate_row_level. by rewrite bind_run, (load_run l h' g).
  - intros r. by apply validate_frame_no_column_missing.
Qed.

(** ** The Int64 cast *)

Lemma astype_Int64_raises coerced idx x :
  coerced !! idx = Some (Some x) → safe_int64 x = None →
  astype_Int64 coerced = Raise TypeError.
Proof.
  intros Hidx Hx. unfold astype_Int64.
  destruct (forallb int64_castable coerced) eqn:Hall; [|done].
  exfalso. rewrite forallb_forall in Hall.
  assert (Hin : In (Some x) coerced)
    by (apply list_elem_of_In, list_elem_of_lookup; eauto).
  specialize (Hall _ Hin). cbn [int64_castable] in Hall.
  apply bool_decide_eq_true in Hall. rewrite Hx in Hall.
  by destruct Hall.
Qed.

Lemma coerce_frame_raises_on_plant_code f series idx x :
  get_col f "Plant Code" = Some series →
  pd_to_numeric series !! idx = Some (Some x) → safe_int64 x = None →
  (coerce_frame columns f []).1 = Raise TypeError.
Proof.
  intros Hs Hidx Hx. unfold columns. cbn [coerce_frame].
  destruct (coerce_item f ("Plant", PyStr)) as [fi|e] eqn:Hplant.
  - apply coerce_item_Ok in Hplant as (vi & _ & ->). cbn [fst snd].
    unfold coerce_item at 1. cbn [fst snd].
    rewrite get_set_col_ne by done. rewrite Hs.
    cbn [coerce_col]. unfold coerce_series.
    replace (dtype_in (Named "Int64") ["datetime64[ns]"; "datetime64[D]"])
      with false by done.
    replace (dtype_in (Named "Int64") ["float64"; "float"]) with false by done.
    replace (dtype_in (Named "Int64") ["Int64"; "int64"; "Int32"])
      with true by done.
    by rewrite (astype_Int64_raises _ idx x Hidx Hx).
  - exfalso. unfold coerce_item, coerce_col, coerce_series in Hplant.
    cbn [fst snd] in Hplant.
    replace (dtype_in PyStr ["datetime64[ns]"; "datetime64[D]"])
      with false in Hplant by done.
    replace (dtype_in PyStr ["float64"; "float"]) with false in Hplant by done.
    replace (dtype_in PyStr ["Int64"; "int64"; "Int32"])
      with false in Hplant by done.
    by destruct (get_col f "Plant").
Qed.

(** C2 (the code at the failing cell).  When a cell of the integer column
    "Plant Code" converts to a number that has no equal int64, [coerce_types]
    raises [TypeError]: it returns no coerced table and no issue list, so the
    cell is neither blanked nor reported. *)
Theorem coerce_types_raises_on_non_integral df h f series idx x :
  h !! df = Some f →
  get_col f "Plant Code" = Some series →
  pd_to_numeric series !! idx = Some (Some x) →
  safe_int64 x = None →
  (coerce_types df h).1 = Raise TypeError.
Proof.
  intros Hf Hs Hidx Hx. rewrite (coerce_types_run df h f Hf). cbn [fst].
  by rewrite (coerce_frame_raises_on_plant_code f series idx x).
Qed.

(** ** Issues of one column *)

Lemma elem_of_mask_zip {A} mask : ∀ (xs : list A) a j x,
  (j, x) ∈ zip (mask_select mask (seq a (length xs))) (mask_select mask xs)
  ↔ ∃ i, j = a + i ∧ mask !! i = Some true ∧ xs !! i = Some x.
Proof.
  induction mask as [|b mask IH]; intros xs a j x.
  - cbn [mask_select zip zip_with]. split.
    + intros Hin. by apply elem_of_nil in Hin.
    + by intros (i & _ & Hm & _).
  - destruct xs as [|x0 xs]; cbn [length seq mask_select].
    + cbn [zip zip_with]. split.
      * intros Hin. by apply elem_of_nil in Hin.
      * by intros (i & _ & _ & Hx).
    + assert (Htail :
        (∃ i, j = S a + i ∧ mask !! i = Some true ∧ xs !! i = Some x)
        ↔ ∃ i, j = a + S i ∧ (b :: mask) !! S i = Some true
               ∧ (x0 :: xs) !! S i = Some x).
      { split; intros (i & -> & Hm & Hx); exists i; (split; [lia | done]). }
      destruct b.
      * cbn [zip zip_with]. rewrite elem_of_cons, IH, Htail. split.
        -- intros [[= -> ->]|(i & -> & Hm & Hx)].
           ++ exists 0. split; [lia | done].
           ++ by exists (S i).
        -- intros ([|i] & -> & Hm & Hx).
           ++ left. injection Hx as <-. f_equal. lia.
           ++ right. by exists i.
      * rewrite IH, Htail. split.
        -- intros (i & -> & Hm & Hx). by exists (S i).
        -- intros ([|i] & -> & Hm & Hx); [done |]. by exists i.
Qed.

Lemma elem_of_bad_issues kind col mask series (i : issue number) :
  i ∈ bad_issues kind col mask series
  ↔ ∃ idx v, i = mk_issue kind col (Some (idx, v))
             ∧ mask !! idx = Some true ∧ series !! idx = Some v.
Proof.
  unfold bad_issues. rewrite list_elem_of_fmap. split.
  - intros ([j v] & -> & Hin). apply elem_of_mask_zip in Hin as (k & -> & Hm & Hv).
    by exists k, v.
  - intros (idx & v & -> & Hm & Hv). exists (idx, v). split; [done |].
    apply elem_of_mask_zip. by exists idx.
Qed.

Lemma bad_mask_lookup {A} (coerced : list (option A)) series idx :
  bad_mask coerced series !! idx = Some true
  ↔ ∃ o v, coerced !! idx = Some o ∧ series !! idx = Some v
           ∧ is_nan o = true ∧ notna v = true.
Proof.
  unfold bad_mask. rewrite lookup_zip_with_Some. split.
  - intros (b1 & b2 & Hand & H1 & H2).
    apply list_lookup_fmap_Some in H1 as (o & -> & Ho).
    apply list_lookup_fmap_Some in H2 as (v & -> & Hv).
    symmetry in Hand. apply andb_true_iff in Hand as [? ?]. by exists o, v.
  - intros (o & v & Ho & Hv & Hn & Hp). exists true, true.
    split; [done |]. rewrite !list_lookup_fmap, Ho, Hv. cbn. by rewrite Hn, Hp.
Qed.

Lemma columns_functional c d1 d2 :
  (c, d1) ∈ columns → (c, d2) ∈ columns → d1 = d2.
Proof.
  intros H1 H2. pose proof columns_NoDup as Hnd. revert H1 H2 Hnd.
  generalize columns. intros l. induction l as [|[c0 d0] l IH]; intros H1 H2 Hnd.
  - by apply elem_of_nil in H1.
  - csimpl in Hnd. apply NoDup_cons in Hnd as [Hfresh Hnd].
    assert (Hout : ∀ d, (c0, d) ∈ l → False).
    { intros d Hd. apply Hfresh, list_elem_of_fmap. by exists (c0, d). }
    apply elem_of_cons in H1 as [E1|H1]; apply elem_of_cons in H2 as [E2|H2].
    + congruence.
    + injection E1 as -> ->. by destruct (Hout d2).
    + injection E2 as -> ->. by destruct (Hout d1).
    + by apply IH.
Qed.

Lemma item_issues_icol f item (i : issue number) :
  i ∈ item_issues f item → icol i = item.1.
Proof.
  unfold item_issues, coerce_col.
  destruct (get_col f item.1) as [series|].
  - unfold coerce_series.
    repeat match goal with
    | |- context [if ?b then _ else _] => destruct b
    | |- context [match astype_Int64 ?c with _ => _ end] =>
        destruct (astype_Int64 c)
    end; cbn [snd];
    try (rewrite elem_of_bad_issues; by intros (? & ? & -> & _));
    intros Hin; by apply elem_of_nil in Hin.
  - cbn [snd]. intros Hin. by apply list_elem_of_singleton in Hin as ->.
Qed.

Lemma date_coerce_col n col series :
  coerce_col n (Some series) col (Named "datetime64[D]")
  = Ok (date_cells (pd_to_datetime series),
        bad_issues "bad_datetime" col
          (bad_mask (pd_to_datetime series) series) series).
Proof. reflexivity. Qed.

(** ** C7: a date cell that does not parse *)

(** C7 (amended).  For a date column of the schema, a cell that is present
    but that [pd.to_datetime] cannot read is reported, when [coerce_types]
    returns, by an issue of kind [bad_datetime] that carries the raw value;
    the cell is the absent marker in the coerced table and the table keeps
    all its rows.  No issue of that column has another kind, and any issue
    naming that cell is this one. *)
Theorem bad_datetime_cell df h f l iss h' col series idx v :
  h !! df = Some f →
  coerce_types df h = (Ok (l, iss), h') →
  (col, Named "datetime64[D]") ∈ columns →
  get_col f col = Some series →
  series !! idx = Some v →
  notna v = true →
  pd_to_datetime series !! idx = Some None →
  ∃ g, h' !! l = Some g
    ∧ nrows g = nrows f
    ∧ row_get g idx col = Some NA
    ∧ mk_issue "bad_datetime" col (Some (idx, v)) ∈ iss
    ∧ (∀ i, i ∈ iss → icol i = col → ikind i = "bad_datetime")
    ∧ (∀ i v', i ∈ iss → icol i = col → irest i = Some (idx, v') →
         i = mk_issue "bad_datetime" col (Some (idx, v))).
Proof.
  intros Hf Hrun Hcol Hs Hv Hpresent Hnat.
  destruct (coerce_types_Ok_inv _ _ _ _ _ _ Hf Hrun) as (g & Hg & _ & _ & Hl).
  destruct (coerce_frame_col columns f [] iss g col _ columns_NoDup Hg Hcol)
    as (vi & Hvi & Hget).
  rewrite Hs, date_coerce_col in Hvi. injection Hvi as <-. cbn [fst] in Hget.
  pose proof (coerce_frame_issues columns f [] iss g columns_NoDup Hg) as Hiss.
  cbn [app] in Hiss.
  assert (Hmine : item_issues f (col, Named "datetime64[D]")
            = bad_issues "bad_datetime" col
                (bad_mask (pd_to_datetime series) series) series).
  { unfold item_issues. cbn [fst snd]. by rewrite Hs, date_coerce_col. }
  assert (Hsrc : ∀ i, i ∈ iss → icol i = col →
            i ∈ bad_issues "bad_datetime" col
                  (bad_mask (pd_to_datetime series) series) series).
  { intros i Hi Hic. rewrite Hiss in Hi.
    apply elem_of_flat_map in Hi as ([c d] & Hcd & Hi).
    pose proof (item_issues_icol _ _ _ Hi) as Hc. cbn [fst] in Hc.
    rewrite Hic in Hc. subst c.
    rewrite (columns_functional _ _ _ Hcd Hcol) in Hi. by rewrite Hmine in Hi. }
  exists g. split; [done |].
  split; [by apply (coerce_frame_nrows columns f [] iss) |].
  split; [|split; [|split]].
  - unfold row_get. rewrite Hget. cbn. unfold date_cells.
    by rewrite list_lookup_fmap, Hnat.
  - rewrite Hiss. apply elem_of_flat_map.
    exists (col, Named "datetime64[D]"). split; [done |].
    rewrite Hmine. apply elem_of_bad_issues. exists idx, v.
    split; [done |]. split; [|done].
    apply bad_mask_lookup. by exists None, v.
  - intros i Hi Hic. apply Hsrc in Hi; [|done].
    by apply elem_of_bad_issues in Hi as (? & ? & -> & _).
  - intros i v' Hi Hic Hrest. apply Hsrc in Hi; [|done].
    apply elem_of_bad_issues in Hi as (idx' & v'' & -> & _ & Hv'').
    cbn [irest] in Hrest. injection Hrest as -> ->.
    rewrite Hv in Hv''. by injection Hv'' as <-.
Qed.

(** ** C8: the reason of return *)

(** C8 (amended).  For a row whose "Reason of Return" is absent or blank
    after trimming, validation emits a [missing_reason] finding for that row
    and column; it also emits a [missing_value] finding for them exactly when
    the cell is absent: a cell of blanks only is present, and gets
    [missing_reason] alone. *)
Theorem reason_of_return_findings df src idx :
  has_col df "Reason of Return" = true →
  idx < nrows df →
  isna_py (row_get df idx "Reason of Return")
  || bool_decide (strip (str_py (row_get df idx "Reason of Return")) = "")
  = true →
  mk_finding (row_get df idx "Plant") (Some (idx + 2))
    (Some "Reason of Return") "missing_reason"
    (row_get df idx "Reason of Return") src ∈ validate_frame df src
  ∧ (mk_finding (row_get df idx "Plant") (Some (idx + 2))
       (Some "Reason of Return") "missing_value" None src
       ∈ validate_frame df src
     ↔ isna_py (row_get df idx "Reason of Return") = true).
Proof.
  intros Hhas Hidx Hblank.
  assert (Hrow : idx ∈ seq 0 (nrows df)).
  { apply list_elem_of_lookup. exists idx. by apply lookup_seq_lt. }
  split; [|split].
  - unfold validate_frame. apply elem_of_flat_map. exists idx. split; [done |].
    unfold validate_row. rewrite !elem_of_app. right. right.
    rewrite Hhas, Hblank. by left.
  - unfold validate_frame. rewrite elem_of_flat_map.
    intros (idx' & _ & Hin). unfold validate_row in Hin.
    rewrite !elem_of_app in Hin. destruct Hin as [Hin|[Hin|Hin]].
    + apply elem_of_flat_map in Hin as (c & _ & Hin).
      destruct (negb (has_col df c)).
      { by apply list_elem_of_singleton in Hin. }
      destruct (isna_py (row_get df idx' c)) eqn:Hna; cbn [andb] in Hin;
        [|by apply elem_of_nil in Hin].
      destruct (negb _); [|by apply elem_of_nil in Hin].
      apply list_elem_of_singleton in Hin. injection Hin as _ Hi <-.
      assert (idx' = idx) as -> by lia. done.
    + destruct (has_col df "Validation"); [|by apply elem_of_nil in Hin].
      destruct (negb _ && _); [|by apply elem_of_nil in Hin].
      by apply list_elem_of_singleton in Hin.
    + destruct (has_col df "Reason of Return"); [|by apply elem_of_nil in Hin].
      destruct (isna_py (row_get df idx' "Reason of Return") || _);
        [|by apply elem_of_nil in Hin].
      by apply list_elem_of_singleton in Hin.
  - intros Hna. unfold validate_frame. apply elem_of_flat_map.
    exists idx. split; [done |].
    unfold validate_row. rewrite !elem_of_app. left.
    apply elem_of_flat_map. exists "Reason of Return". split.
    + apply (bool_decide_unpack _). by vm_compute.
    + rewrite Hhas, Hna. cbn. by left.
Qed.

(** ** The ingestion loop runs as [ingest_batch] *)

Lemma mret_run {A} (a : A) h : (mret a : Py A) h = (Ok a, h).
Proof. reflexivity. Qed.

Lemma df_strip_columns_run l h f :
  h !! l = Some f →
  df_strip_columns l h = (Ok tt, <[l := strip_labels f]> h).
Proof.
  intros Hf. unfold df_strip_columns. by rewrite bind_run, (load_run l h f).
Qed.

Lemma report_type_issues_run l src tis : ∀ errs h cdf,
  h !! l = Some cdf →
  report_type_issues l src tis errs h
  = (report_issues_frame cdf src tis errs, h).
Proof.
  induction tis as [|it rest IH]; intros errs h cdf Hl;
    cbn [report_type_issues report_issues_frame].
  - done.
  - destruct (String.eqb (ikind it) "missing_column"); [by apply IH |].
    destruct (irest it) as [[idx val]|]; [|done].
    rewrite bind_run, (load_run l h cdf) by done.
    rewrite bind_run.
    destruct (has_col cdf (icol it) && Nat.ltb idx (nrows cdf));
      [destruct (has_col cdf "Plant");
         [destruct (row_get cdf idx "Plant")|]|];
      try (rewrite mret_run; by apply IH).
    done.
Qed.

Lemma report_issues_frame_prefix cdf src tis : ∀ pre errs,
  report_issues_frame cdf src tis (pre ++ errs)
  = match report_issues_frame cdf src tis errs with
    | Ok r => Ok (pre ++ r)
    | Raise e => Raise e
    end.
Proof.
  induction tis as [|it rest IH]; intros pre errs; cbn [report_issues_frame].
  - done.
  - destruct (String.eqb (ikind it) "missing_column").
    { by rewrite <- app_assoc, IH. }
    destruct (irest it) as [[idx val]|]; [|done].
    destruct (has_col cdf (icol it) && Nat.ltb idx (nrows cdf));
      [destruct (has_col cdf "Plant");
         [destruct (row_get cdf idx "Plant")|]|];
      try (by rewrite <- app_assoc, IH).
    done.
Qed.

Lemma process_source_unreadable p e fr er h :
  process_source (p, ReadErr e) fr er h
  = (Ok (fr, er ++ [read_error_finding p (Some e)]), h).
Proof. reflexivity. Qed.

Lemma process_source_loaded p raw fr er h :
  process_source (p, ReadOk raw) fr er h
  = (match ingest_frame p raw with
     | Ok tf => Ok (fr ++ [S (length h)], er ++ tf.2)
     | Raise x => Raise x
     end,
     h ++ [strip_labels raw;
           match ingest_frame p raw with
           | Ok tf => tf.1
           | Raise _ => (coerce_frame columns (strip_labels raw) []).2
           end]).
Proof.
  unfold process_source, safe_read. cbn [fst snd].
  rewrite !bind_run. unfold alloc. rewrite mret_run. cbn [fst snd].
  assert (Hraw : (h ++ [raw]) !! length h = Some raw)
    by (by apply list_lookup_middle).
  rewrite bind_run, (df_strip_columns_run _ _ raw Hraw).
  assert (Hheap : <[length h:=strip_labels raw]> (h ++ [raw])
                  = h ++ [strip_labels raw]).
  { pose proof (insert_app_r h [raw] 0 (strip_labels raw)) as E.
    rewrite Nat.add_0_r in E. by rewrite E. }
  rewrite Hheap.
  assert (Hs : (h ++ [strip_labels raw]) !! length h = Some (strip_labels raw))
    by (by apply list_lookup_middle).
  rewrite bind_run, (coerce_types_run _ _ _ Hs).
  unfold ingest_frame.
  destruct (coerce_frame columns (strip_labels raw) []) as [[tis|x] cdf];
    cbn [fst snd].
  2: { by rewrite <- app_assoc. }
  rewrite length_app. cbn [length]. rewrite Nat.add_1_r.
  assert (Hc : ((h ++ [strip_labels raw]) ++ [cdf]) !! S (length h) = Some cdf).
  { rewrite <- app_assoc. cbn [app].
    replace (S (length h)) with (length h + 1) by lia.
    rewrite lookup_app_r by lia.
    by replace (length h + 1 - length h) with 1 by lia. }
  rewrite bind_run, (report_type_issues_run _ _ _ _ _ cdf Hc).
  replace er with (er ++ []) at 1 by apply app_nil_r.
  rewrite report_issues_frame_prefix.
  destruct (report_issues_frame cdf p tis []) as [errs|x].
  2: { by rewrite <- app_assoc. }
  unfold validate_row_level.
  rewrite !bind_run, (load_run _ _ cdf Hc), mret_run.
  rewrite bind_run, (df_setitem_scalar_run _ _ _ _ cdf Hc), mret_run.
  cbn [fst snd]. rewrite <- app_assoc. f_equal.
  rewrite <- app_assoc. cbn [app].
  pose proof (insert_app_r h [strip_labels raw; cdf] 1 (tag_source cdf p)) as E.
  rewrite Nat.add_1_r in E. unfold tag_source in E. by rewrite E.
Qed.

Lemma main_loop_app a : ∀ b fr er h,
  main_loop (a ++ b) fr er h
  = (main_loop a fr er ≫= λ st, main_loop b st.1 st.2) h.
Proof.
  induction a as [|src a IH]; intros b fr er h.
  - reflexivity.
  - cbn [app main_loop]. rewrite !bind_run.
    destruct (process_source src fr er h) as [[st|x] h1]; [|done].
    by rewrite IH, bind_run.
Qed.

Lemma main_loop_ok files : ∀ fr er h ts fs,
  ingest_batch files = Ok (ts, fs) →
  ∃ locs ext,
    main_loop files fr er h = (Ok (fr ++ locs, er ++ fs), h ++ ext)
    ∧ Forall2 (λ l t, (h ++ ext) !! l = Some t) locs ts.
Proof.
  induction files as [|[p [raw|e]] rest IH]; intros fr er h ts fs;
    cbn [ingest_batch fst snd].
  - intros [= <- <-]. exists [], []. rewrite !app_nil_r. by split.
  - destruct (ingest_frame p raw) as [[t fs1]|x] eqn:Hin; [|done].
    destruct (ingest_batch rest) as [[ts' fs']|x] eqn:Hrest; [|done].
    cbn [fst snd]. intros [= <- <-].
    destruct (IH (fr ++ [S (length h)]) (er ++ fs1)
                 (h ++ [strip_labels raw; t]) ts' fs' eq_refl)
      as (locs & ext & Hrun & Hall).
    exists (S (length h) :: locs), ([strip_labels raw; t] ++ ext).
    cbn [main_loop]. rewrite bind_run, process_source_loaded, Hin.
    cbn [fst snd]. rewrite Hrun, <- !app_assoc. split; [done |].
    constructor; [|by rewrite <- app_assoc in Hall].
    cbn [app]. replace (S (length h)) with (length h + 1) by lia.
    rewrite lookup_app_r by lia.
    by replace (length h + 1 - length h) with 1 by lia.
  - destruct (ingest_batch rest) as [[ts' fs']|x] eqn:Hrest; [|done].
    cbn [fst snd]. intros [= <- <-].
    destruct (IH fr (er ++ [read_error_finding p (Some e)]) h ts' fs' eq_refl)
      as (locs & ext & Hrun & Hall).
    exists locs, ext. cbn [main_loop].
    rewrite bind_run, process_source_unreadable. cbn [fst snd].
    rewrite Hrun, <- app_assoc. by split.
Qed.

Lemma main_loop_raise files : ∀ fr er h x,
  ingest_batch files = Raise x → (main_loop files fr er h).1 = Raise x.
Proof.
  induction files as [|[p [raw|e]] rest IH]; intros fr er h x;
    cbn [ingest_batch main_loop fst snd]; [done | |].
  - rewrite bind_run, process_source_loaded.
    destruct (ingest_frame p raw) as [[t fs1]|y]; [|by intros [= ->]].
    destruct (ingest_batch rest) as [[ts' fs']|y] eqn:Hrest; [done |].
    intros [= ->]. by apply IH.
  - rewrite bind_run, process_source_unreadable.
    destruct (ingest_batch rest) as [[ts' fs']|y] eqn:Hrest; [done |].
    intros [= ->]. by apply IH.
Qed.

Lemma load_all_run locs : ∀ ts h,
  Forall2 (λ l t, h !! l = Some t) locs ts → load_all locs h = (Ok ts, h).
Proof.
  induction locs as [|l locs IH]; intros ts h Hall.
  - by apply Forall2_nil_inv_l in Hall as ->.
  - apply Forall2_cons_inv_l in Hall as (t & ts' & Ht & Hall & ->).
    cbn [load_all]. rewrite bind_run, (load_run l h t) by done.
    by rewrite bind_run, (IH ts' h Hall).
Qed.

(** The master frame [main] builds from the tables in [all_frames]. *)
Lemma main_run src rest h ts fs :
  ingest_batch (src :: rest) = Ok (ts, fs) →
  ∃ ext,
    main (src :: rest) h
    = (Ok (mk_outputs
             (Some match ts with
                   | [] => empty_master
                   | _ => {| nrows := sum_list (nrows <$> ts);
                             cols := map (λ c, (c, concat_col ts c))
                                         (concat_labels ts) |}
                   end)
             (match fs with [] => None | _ => Some fs end)),
       h ++ ext).
Proof.
  intros Hb.
  destruct (main_loop_ok (src :: rest) [] [] h ts fs Hb)
    as (locs & ext & Hrun & Hall).
  exists ext. unfold main. rewrite bind_run, Hrun. cbn [app fst snd].
  rewrite bind_run.
  destruct locs as [|l locs].
  - apply Forall2_nil_inv_l in Hall as ->. by rewrite !mret_run.
  - rewrite bind_run, (load_all_run _ ts _ Hall).
    destruct ts as [|t ts]; [by apply Forall2_cons_nil_inv in Hall |].
    reflexivity.
Qed.

Lemma ingest_frame_table p raw t fs :
  ingest_frame p raw = Ok (t, fs) →
  ∃ iss cdf,
    coerce_types 0 [strip_labels raw]
    = (Ok (1, iss), [strip_labels raw; cdf])
    ∧ t = tag_source cdf p ∧ nrows t = nrows raw.
Proof.
  unfold ingest_frame.
  destruct (coerce_frame columns (strip_labels raw) []) as [[iss|x] cdf]
    eqn:Hc; [|done].
  destruct (report_issues_frame cdf p iss []) as [errs|x]; [|done].
  intros [= <- <-]. exists iss, cdf. split; [|split; [done |]].
  - rewrite (coerce_types_run 0 [strip_labels raw] (strip_labels raw) eq_refl).
    by rewrite Hc.
  - cbn. by rewrite (coerce_frame_nrows _ _ _ _ _ Hc).
Qed.

Lemma ingest_batch_tables files : ∀ ts fs,
  ingest_batch files = Ok (ts, fs) →
  Forall2 (λ src t, ∃ fs1, ingest_frame src.1 src.2 = Ok (t, fs1))
          (loaded files) ts.
Proof.
  induction files as [|[p [raw|e]] rest IH]; intros ts fs;
    cbn [ingest_batch loaded flat_map fst snd app].
  - intros [= <- <-]. constructor.
  - destruct (ingest_frame p raw) as [[t fs1]|x] eqn:Hin; [|done].
    destruct (ingest_batch rest) as [[ts' fs']|x] eqn:Hrest; [|done].
    cbn [fst snd]. intros [= <- <-]. constructor; [by exists fs1 |].
    by apply (IH ts' fs').
  - destruct (ingest_batch rest) as [[ts' fs']|x] eqn:Hrest; [|done].
    cbn [fst snd]. intros [= <- <-]. by apply (IH ts' fs').
Qed.

Lemma assoc_tabulate {V} (k : string → V) (l : list string) c :
  c ∈ l → assoc c (map (λ x, (x, k x)) l) = Some (k c).
Proof.
  induction l as [|x l IH]; intros Hin; [by apply elem_of_nil in Hin |].
  cbn [map assoc]. destruct (decide (x = c)) as [->|Hne]; [done |].
  apply IH. apply elem_of_cons in Hin as [?|?]; [congruence | done].
Qed.

Lemma labels_tabulate (k : string → list (cell number)) (l : list string) n :
  labels {| nrows := n; cols := map (λ x, (x, k x)) l |} = l.
Proof.
  unfold labels. cbn [cols]. induction l as [|x l IH]; [done |].
  csimpl. by rewrite IH.
Qed.

Lemma main_Ok_batch files h outs h' :
  main files h = (Ok outs, h') →
  files = [] ∧ outs = mk_outputs None None
  ∨ ∃ src rest ts fs, files = src :: rest ∧ ingest_batch files = Ok (ts, fs).
Proof.
  destruct files as [|src rest].
  - intros [= <- _]. by left.
  - intros Hmain. right. exists src, rest.
    destruct (ingest_batch (src :: rest)) as [[ts fs]|x] eqn:Hb; [by eauto |].
    exfalso. pose proof (main_loop_raise _ [] [] h x Hb) as Hr.
    unfold main in Hmain. rewrite bind_run in Hmain.
    destruct (main_loop (src :: rest) [] [] h) as [[st|y] h1]; done.
Qed.

Lemma sum_nrows_tables (l : list (string * frame number))
    (ts : list (frame number)) :
  Forall2 (λ src t, nrows t = nrows src.2) l ts →
  sum_list (nrows <$> ts) = sum_list ((λ src, nrows src.2) <$> l).
Proof.
  induction 1 as [|src t l ts Ht _ IH]; [done |]. csimpl. by rewrite Ht, IH.
Qed.

(** ** C5: a source that does not load *)

(** C5.  A source the Reader cannot load adds exactly one finding, of kind
    [read_error] with no row and no column, adds no table to [all_frames],
    leaves every DataFrame as it is, and the loop goes on with the remaining
    sources from that state.  A source that loads is never left out: it adds
    its table, unless its processing raises. *)
Theorem read_error_source pre p e post fr er h :
  process_source (p, ReadErr e) fr er h
  = (Ok (fr, er ++ [mk_finding None None None "read_error" (Some (Str e)) p]),
     h)
  ∧ main_loop (pre ++ (p, ReadErr e) :: post) fr er h
    = (main_loop pre fr er ≫= λ st,
         main_loop post st.1
           (st.2 ++ [mk_finding None None None "read_error" (Some (Str e)) p]))
        h
  ∧ ∀ raw,
      (process_source (p, ReadOk raw) fr er h).1
      = match ingest_frame p raw with
        | Ok tf => Ok (fr ++ [S (length h)], er ++ tf.2)
        | Raise x => Raise x
        end.
Proof.
  split; [done |]. split.
  - rewrite main_loop_app, !bind_run.
    destruct (main_loop pre fr er h) as [[st|x] h1]; [|done].
    cbn [main_loop]. by rewrite bind_run, process_source_unreadable.
  - intros raw. by rewrite process_source_loaded.
Qed.

(** ** C6: the empty batch *)


(** The finding of a source that did not load. *)
Lemma main_loop_unreadable l : ∀ fr er h,
  Forall (λ src : source, ∃ e, src.2 = ReadErr e) l →
  main_loop l fr er h
  = (Ok (fr, er ++ map (λ src : source,
                          mk_finding None None None "read_error"
                            (match src.2 with
                             | ReadErr e => Some (Str e)
                             | ReadOk _ => None
                             end) src.1) l), h).
Proof.
  induction l as [|[q rr] l IH]; intros fr er h Hall.
  - cbn [main_loop map]. by rewrite app_nil_r.
  - apply Forall_cons in Hall as [[e He] Hall]. cbn in He. subst rr.
    cbn [main_loop map fst snd].
    rewrite bind_run, process_source_unreadable. cbn [fst snd].
    by rewrite (IH _ _ _ Hall), <- app_assoc.
Qed.

(** Where the empty master with the schema columns does arise: a batch that
    is not empty and of which no source loads. *)
Lemma main_all_unreadable p e rest h :
  Forall (λ src : source, ∃ e', src.2 = ReadErr e') rest →
  ∃ fs, main ((p, ReadErr e) :: rest) h
        = (Ok (mk_outputs (Some empty_master) (Some fs)), h)
        ∧ length fs = S (length rest)
        ∧ Forall (λ r, f_issue r = "read_error") fs.
Proof.
  intros Hrest.
  assert (Hall : Forall (λ src : source, ∃ e', src.2 = ReadErr e')
                   ((p, ReadErr e) :: rest))
    by (constructor; [by exists e | done]).
  eexists. split; [|split].
  - unfold main. rewrite bind_run, (main_loop_unreadable _ _ _ _ Hall).
    cbn [app map fst snd]. reflexivity.
  - cbn [length]. by rewrite length_map.
  - constructor; [done |]. apply Forall_forall. intros r Hr.
    by apply list_elem_of_fmap in Hr as (src & -> & _).
Qed.

(** C6 (amended).  On an empty batch [main] returns at once, without raising:
    it writes neither the master workbook nor the error report, and touches
    no DataFrame.  A run that returns has written a master exactly when its
    batch was not empty; the master is the empty table with the schema
    columns when the batch is not empty and none of its sources loads. *)
Theorem main_empty_batch files h outs h' :
  main files h = (Ok outs, h') →
  main [] h = (Ok (mk_outputs None None), h)
  ∧ (files = [] → outs = mk_outputs None None ∧ h' = h)
  ∧ (files = [] ↔ master_database outs = None)
  ∧ (files ≠ [] → loaded files = [] →
       master_database outs = Some empty_master).
Proof.
  intros Hmain. split; [done |].
  destruct (main_Ok_batch _ _ _ _ Hmain)
    as [[-> ->]|(src & rest & ts & fs & -> & Hb)].
  - split; [|split; [done | done]].
    intros _. split; [done |]. by injection Hmain as <-.
  - destruct (main_run _ _ h _ _ Hb) as (ext & Hrun).
    pose proof (ingest_batch_tables _ _ _ Hb) as Htabs.
    rewrite Hrun in Hmain. injection Hmain as <- _.
    split; [done |]. split; [done |].
    intros _ Hnone. rewrite Hnone in Htabs.
    by apply Forall2_nil_inv_l in Htabs as ->.
Qed.

(** ** No [column_missing] in the error report *)

Lemma item_issues_kind f item (i : issue number) :
  i ∈ item_issues f item → ikind i ≠ "column_missing".
Proof.
  unfold item_issues, coerce_col.
  destruct (get_col f item.1) as [series|].
  - unfold coerce_series.
    repeat match goal with
    | |- context [if ?b then _ else _] => destruct b
    | |- context [match astype_Int64 ?c with _ => _ end] =>
        destruct (astype_Int64 c)
    end; cbn [snd];
    try (rewrite elem_of_bad_issues; by intros (? & ? & -> & _));
    intros Hin; by apply elem_of_nil in Hin.
  - cbn [snd]. intros Hin. by apply list_elem_of_singleton in Hin as ->.
Qed.

Lemma report_issues_frame_kinds cdf src tis : ∀ errs out,
  report_issues_frame cdf src tis errs = Ok out →
  (∀ i, i ∈ tis → ikind i ≠ "column_missing") →
  (∀ r, r ∈ errs → f_issue r ≠ "column_missing") →
  ∀ r, r ∈ out → f_issue r ≠ "column_missing".
Proof.
  induction tis as [|it rest IH]; intros errs out; cbn [report_issues_frame].
  - intros [= <-] _ Herrs. done.
  - intros Hrun Htis Herrs.
    assert (Hit : ikind it ≠ "column_missing") by (apply Htis; left).
    assert (Hrest : ∀ i, i ∈ rest → ikind i ≠ "column_missing")
      by (intros i Hi; apply Htis; by right).
    assert (Hsnoc : ∀ x : finding number, f_issue x ≠ "column_missing" →
              ∀ r, r ∈ errs ++ [x] → f_issue r ≠ "column_missing").
    { intros x Hx r Hr. apply elem_of_app in Hr as [Hr|Hr]; [by apply Herrs |].
      by apply list_elem_of_singleton in Hr as ->. }
    destruct (String.eqb (ikind it) "missing_column").
    { eapply IH; [exact Hrun | done |]. by apply Hsnoc. }
    destruct (irest it) as [[idx val]|]; [|done].
    destruct (has_col cdf (icol it) && Nat.ltb idx (nrows cdf));
      [destruct (has_col cdf "Plant");
         [destruct (row_get cdf idx "Plant")|]|];
      try done;
      (eapply IH; [exact Hrun | done |]; by apply Hsnoc).
Qed.

Lemma ingest_frame_no_column_missing p raw t fs r :
  ingest_frame p raw = Ok (t, fs) → r ∈ fs → f_issue r ≠ "column_missing".
Proof.
  unfold ingest_frame.
  destruct (coerce_frame columns (strip_labels raw) []) as [[iss|x] cdf]
    eqn:Hc; [|done].
  destruct (report_issues_frame cdf p iss []) as [errs|x] eqn:Hrep; [|done].
  intros [= _ <-] Hr. apply elem_of_app in Hr as [Hr|Hr].
  - eapply (report_issues_frame_kinds _ _ _ _ _ Hrep); [| |exact Hr].
    + intros i Hi.
      rewrite (coerce_frame_issues _ _ _ _ _ columns_NoDup Hc) in Hi.
      cbn [app] in Hi. apply elem_of_flat_map in Hi as (item & _ & Hi).
      by apply (item_issues_kind _ _ _ Hi).
    + intros r0 Hr0. by apply elem_of_nil in Hr0.
  - eapply validate_frame_no_column_missing; [|exact Hr].
    intros c Hc'. by apply has_col_true, (coerce_frame_required _ _ _ _ Hc).
Qed.

Lemma ingest_batch_no_column_missing files : ∀ ts fs r,
  ingest_batch files = Ok (ts, fs) → r ∈ fs → f_issue r ≠ "column_missing".
Proof.
  induction files as [|[p [raw|e]] rest IH]; intros ts fs r;
    cbn [ingest_batch fst snd].
  - intros [= _ <-] Hr. by apply elem_of_nil in Hr.
  - destruct (ingest_frame p raw) as [[t fs1]|x] eqn:Hin; [|done].
    destruct (ingest_batch rest) as [[ts' fs']|x] eqn:Hrest; [|done].
    cbn [fst snd]. intros [= _ <-] Hr. apply elem_of_app in Hr as [Hr|Hr].
    + by apply (ingest_frame_no_column_missing _ _ _ _ _ Hin).
    + by apply (IH ts' fs').
  - destruct (ingest_batch rest) as [[ts' fs']|x] eqn:Hrest; [|done].
    cbn [fst snd]. intros [= _ <-] Hr. apply elem_of_cons in Hr as [->|Hr].
    + done.
    + by apply (IH ts' fs').
Qed.

(** For the whole run: the error report [main] writes has no finding of kind
    [column_missing]. *)
Lemma error_report_has_no_column_missing files h outs h' led r :
  main files h = (Ok outs, h') →
  error_report outs = Some led →
  r ∈ led → f_issue r ≠ "column_missing".
Proof.
  intros Hmain Hled Hr.
  destruct (main_Ok_batch _ _ _ _ Hmain)
    as [[_ ->]|(src & rest & ts & fs & -> & Hb)]; [done |].
  destruct (main_run _ _ h _ _ Hb) as (ext & Hrun).
  rewrite Hrun in Hmain. injection Hmain as <- _.
  cbn [error_report] in Hled. destruct fs as [|r0 fs]; [done |].
  injection Hled as <-. by apply (ingest_batch_no_column_missing _ _ _ _ Hb).
Qed.

(** ** C3: an exception that escapes the run *)

Lemma ingest_frame_raises_on_plant_code p raw series idx x :
  get_col (strip_labels raw) "Plant Code" = Some series →
  pd_to_numeric series !! idx = Some (Some x) → safe_int64 x = None →
  ingest_frame p raw = Raise TypeError.
Proof.
  intros Hs Hidx Hx. unfold ingest_frame.
  pose proof (coerce_frame_raises_on_plant_code _ _ _ _ Hs Hidx Hx) as Hr.
  destruct (coerce_frame columns (strip_labels raw) []) as [[iss|e] g];
    cbn [fst] in Hr; [done | by injection Hr as ->].
Qed.

Lemma ingest_batch_raises pre : ∀ p raw post x,
  ingest_frame p raw = Raise x →
  ∃ e, ingest_batch (pre ++ (p, ReadOk raw) :: post) = Raise e.
Proof.
  induction pre as [|[q [raw'|e']] pre IH]; intros p raw post x Hx;
    cbn [app ingest_batch fst snd].
  - rewrite Hx. by exists x.
  - destruct (ingest_frame q raw') as [t1|y]; [|by exists y].
    destruct (IH p raw post x Hx) as [e ->]. by exists e.
  - destruct (IH p raw post x Hx) as [e ->]. by exists e.
Qed.

(** C3 (the code at the failing input).  A batch with a source whose
    "Plant Code" column holds a number that has no equal int64 (such as
    [3.7]) does not finish: an exception leaves [main], and the run produces
    neither a master dataset nor an error ledger, whatever the other sources
    are. *)
Theorem main_aborts_on_non_integral_code pre p raw post h series idx x :
  get_col (strip_labels raw) "Plant Code" = Some series →
  pd_to_numeric series !! idx = Some (Some x) →
  safe_int64 x = None →
  ∃ e, (main (pre ++ (p, ReadOk raw) :: post) h).1 = Raise e.
Proof.
  intros Hs Hidx Hx.
  pose proof (ingest_frame_raises_on_plant_code p raw _ _ _ Hs Hidx Hx) as Hin.
  destruct (ingest_batch_raises pre p raw post _ Hin) as [e He].
  exists e. pose proof (main_loop_raise _ [] [] h e He) as Hr.
  unfold main. destruct (pre ++ (p, ReadOk raw) :: post) as [|src rest] eqn:Hl.
  { by destruct pre. }
  rewrite bind_run.
  destruct (main_loop (src :: rest) [] [] h) as [[st|y] h1]; [done |].
  cbn [fst] in Hr. by injection Hr as ->.
Qed.

End Proofs.

(** * Further properties of the pipeline *)

(** Finds an element in an explicit list. *)
Ltac find_elem_of :=
  solve [repeat first [apply list_elem_of_here | apply list_elem_of_further]].

Section Extras.
Context `{Pandas}.

Implicit Types (f g : frame number) (col : string).

(** ** When [coerce_types] returns *)







(** ** The coerced table stays rectangular *)

Lemma rectangular_get_col f col series :
  rectangular f → get_col f col = Some series → length series = nrows f.
Proof.
  unfold rectangular, get_col. generalize (nrows f). intros n.
  induction (cols f) as [|[k v] l IH]; intros Hall; cbn [assoc]; [done |].
  apply Forall_cons in Hall as [Hv Hall].
  destruct (decide (k = col)); [by intros [= <-] | by apply IH].
Qed.

Lemma rectangular_set_col f col vals :
  rectangular f → length vals = nrows f → rectangular (set_col f col vals).
Proof.
  unfold rectangular, set_col. cbn [nrows cols]. generalize (nrows f).
  intros n Hall Hlen. induction (cols f) as [|[k v] l IH]; cbn [assoc_set].
  - by repeat constructor.
  - apply Forall_cons in Hall as [Hv Hall].
    destruct (decide (k = col)); constructor; auto.
Qed.

Lemma coerce_series_length col dt series vi :
  coerce_series col dt series = Ok vi → length vi.1 = length series.
Proof.
  unfold coerce_series, astype_Int64, date_cells, astype_float64,
    astype_string.
  repeat match goal with
  | |- context [if ?b then _ else _] => destruct b
  end; intros [= <-]; cbn [fst]; rewrite ?length_map;
    auto using pd_to_numeric_length, pd_to_datetime_length.
Qed.

Lemma coerce_frame_rectangular items : ∀ f iss iss' g,
  rectangular f →
  coerce_frame items f iss = (Ok iss', g) → rectangular g.
Proof.
  induction items as [|item rest IH]; intros f iss iss' g Hrect;
    cbn [coerce_frame].
  - by intros [= _ <-].
  - destruct (coerce_item f item) as [fi|e] eqn:Hi; [|done].
    apply coerce_item_Ok in Hi as (vi & Hvi & ->). cbn [fst snd].
    apply IH. apply rectangular_set_col; [done |].
    unfold coerce_col in Hvi.
    destruct (get_col f item.1) as [series|] eqn:Hs.
    + rewrite (coerce_series_length _ _ _ _ Hvi).
      by apply (rectangular_get_col f item.1).
    + injection Hvi as <-. apply length_replicate.
Qed.

(** X2.  If every column of the raw table has one value per row, so has
    every column of the table [coerce_types] returns, with the same number
    of rows: no conversion drops, adds or shifts a row. *)
Theorem coerce_types_rectangular df h f l iss h' :
  h !! df = Some f →
  rectangular f →
  coerce_types df h = (Ok (l, iss), h') →
  ∃ g, h' !! l = Some g ∧ nrows g = nrows f ∧ rectangular g.
Proof.
  intros Hf Hrect Hrun.
  destruct (coerce_types_Ok_inv _ _ _ _ _ _ Hf Hrun) as (g & Hg & _ & _ & Hl).
  exists g. split; [done |].
  split; [by apply (coerce_frame_nrows columns f [] iss) |].
  by apply (coerce_frame_rectangular columns f [] iss).
Qed.

(** ** The cells of the typed columns *)

Lemma column_issues f iss g col dt (i : issue number) :
  coerce_frame columns f [] = (Ok iss, g) →
  (col, dt) ∈ columns →
  i ∈ iss ∧ icol i = col ↔ i ∈ item_issues f (col, dt).
Proof.
  intros Hg Hcol.
  rewrite (coerce_frame_issues columns f [] iss g columns_NoDup Hg).
  cbn [app]. rewrite elem_of_flat_map. split.
  - intros [([c d] & Hcd & Hi) Hic].
    pose proof (item_issues_icol _ _ _ Hi) as Hc. cbn [fst] in Hc.
    rewrite Hic in Hc. subst c.
    by rewrite (columns_functional _ _ _ Hcol Hcd).
  - intros Hi. split; [by exists (col, dt) |].
    by apply (item_issues_icol _ _ _ Hi).
Qed.

Lemma typed_cell_issues {A} kind col dt (coerced : list (option A))
    f iss g series idx v o :
  coerce_frame columns f [] = (Ok iss, g) →
  (col, dt) ∈ columns →
  item_issues f (col, dt)
  = bad_issues kind col (bad_mask coerced series) series →
  series !! idx = Some v →
  coerced !! idx = Some o →
  (∀ i, i ∈ iss → icol i = col → (∃ v', irest i = Some (idx, v')) →
        i = mk_issue kind col (Some (idx, v)))
  ∧ (mk_issue kind col (Some (idx, v)) ∈ iss ↔ o = None ∧ notna v = true).
Proof.
  intros Hg Hcol Hmine Hv Ho. split.
  - intros i Hi Hic [v' Hrest].
    assert (Hin : i ∈ item_issues f (col, dt))
      by (by apply (column_issues f iss g)).
    rewrite Hmine in Hin.
    apply elem_of_bad_issues in Hin as (idx' & v'' & -> & _ & Hv'').
    cbn [irest] in Hrest. injection Hrest as -> ->.
    rewrite Hv in Hv''. by injection Hv'' as <-.
  - split.
    + intros Hi.
      assert (Hin : mk_issue kind col (Some (idx, v)) ∈ item_issues f (col, dt))
        by (by apply (column_issues f iss g)).
      rewrite Hmine in Hin.
      apply elem_of_bad_issues in Hin as (idx' & v' & [= <- <-] & Hm & _).
      apply bad_mask_lookup in Hm as (o' & v' & Ho' & Hv' & Hnan & Hpres).
      rewrite Ho in Ho'. injection Ho' as <-.
      rewrite Hv in Hv'. injection Hv' as <-.
      split; [by destruct o | done].
    + intros [-> Hpres].
      apply (column_issues f iss g col dt); [done | done |].
      rewrite Hmine. apply elem_of_bad_issues. exists idx, v.
      split; [done |]. split; [|done].
      apply bad_mask_lookup. by exists None, v.
Qed.

Lemma float_coerce_col n col series :
  coerce_col n (Some series) col (Named "float64")
  = Ok (astype_float64 (pd_to_numeric series),
        bad_issues "bad_float" col
          (bad_mask (pd_to_numeric series) series) series).
Proof. reflexivity. Qed.

Lemma int_coerce_col n col series :
  coerce_col n (Some series) col (Named "Int64")
  = match astype_Int64 (pd_to_numeric series) with
    | Ok vals =>
        Ok (vals, bad_issues "bad_int" col
                    (bad_mask (pd_to_numeric series) series) series)
    | Raise e => Raise e
    end.
Proof. reflexivity. Qed.

(** X3.  A cell of a decimal column, when [coerce_types] returns: it is the
    number [pd.to_numeric] read, or the absent marker when nothing was read.
    A [bad_float] issue carrying the raw value is recorded for the cell
    exactly when nothing was read although the raw cell was present, and no
    other issue names the cell. *)
Theorem decimal_cell df h f l iss h' col series idx v o :
  h !! df = Some f →
  coerce_types df h = (Ok (l, iss), h') →
  (col, Named "float64") ∈ columns →
  get_col f col = Some series →
  series !! idx = Some v →
  pd_to_numeric series !! idx = Some o →
  ∃ g, h' !! l = Some g
    ∧ row_get g idx col
      = Some (match o with Some x => Float x | None => NA end)
    ∧ (∀ i, i ∈ iss → icol i = col → (∃ v', irest i = Some (idx, v')) →
            i = mk_issue "bad_float" col (Some (idx, v)))
    ∧ (mk_issue "bad_float" col (Some (idx, v)) ∈ iss
       ↔ o = None ∧ notna v = true).
Proof.
  intros Hf Hrun Hcol Hs Hv Ho.
  destruct (coerce_types_Ok_inv _ _ _ _ _ _ Hf Hrun) as (g & Hg & _ & _ & Hl).
  destruct (coerce_frame_col columns f [] iss g col _ columns_NoDup Hg Hcol)
    as (vi & Hvi & Hget).
  rewrite Hs, float_coerce_col in Hvi. injection Hvi as <-. cbn [fst] in Hget.
  exists g. split; [done |]. split.
  - unfold row_get. rewrite Hget. cbn. unfold astype_float64.
    by rewrite list_lookup_fmap, Ho.
  - apply (typed_cell_issues "bad_float" col (Named "float64")
             (pd_to_numeric series) f iss g series idx v o); try done.
    unfold item_issues. cbn [fst snd]. by rewrite Hs, float_coerce_col.
Qed.

(** X4.  A cell of an integer column, when [coerce_types] returns: a number
    that was read has an equal int64 and the cell is that integer; the cell
    is the absent marker when nothing was read.  A [bad_int] issue carrying
    the raw value is recorded exactly when nothing was read although the raw
    cell was present, and no other issue names the cell. *)
Theorem integer_cell df h f l iss h' col series idx v o :
  h !! df = Some f →
  coerce_types df h = (Ok (l, iss), h') →
  (col, Named "Int64") ∈ columns →
  get_col f col = Some series →
  series !! idx = Some v →
  pd_to_numeric series !! idx = Some o →
  ∃ g, h' !! l = Some g
    ∧ match o with
      | Some x => ∃ z, safe_int64 x = Some z
                       ∧ row_get g idx col = Some (Int z)
      | None => row_get g idx col = Some NA
      end
    ∧ (∀ i, i ∈ iss → icol i = col → (∃ v', irest i = Some (idx, v')) →
            i = mk_issue "bad_int" col (Some (idx, v)))
    ∧ (mk_issue "bad_int" col (Some (idx, v)) ∈ iss
       ↔ o = None ∧ notna v = true).
Proof.
  intros Hf Hrun Hcol Hs Hv Ho.
  destruct (coerce_types_Ok_inv _ _ _ _ _ _ Hf Hrun) as (g & Hg & _ & _ & Hl).
  destruct (coerce_frame_col columns f [] iss g col _ columns_NoDup Hg Hcol)
    as (vi & Hvi & Hget).
  rewrite Hs, int_coerce_col in Hvi. unfold astype_Int64 in Hvi.
  destruct (forallb int64_castable (pd_to_numeric series)) eqn:Hall; [|done].
  injection Hvi as <-. cbn [fst] in Hget.
  exists g. split; [done |]. split.
  - unfold row_get. rewrite Hget. cbn. rewrite list_lookup_fmap, Ho. cbn.
    destruct o as [x|]; [|done].
    rewrite forallb_forall in Hall.
    assert (Hin : In (Some x) (pd_to_numeric series))
      by (apply list_elem_of_In, list_elem_of_lookup; eauto).
    specialize (Hall _ Hin). cbn [int64_castable] in Hall.
    apply bool_decide_eq_true in Hall as [z Hz]. exists z.
    split; [done |]. cbn. by rewrite Hz.
  - apply (typed_cell_issues "bad_int" col (Named "Int64")
             (pd_to_numeric series) f iss g series idx v o); try done.
    unfold item_issues. cbn [fst snd].
    rewrite Hs, int_coerce_col. unfold astype_Int64. by rewrite Hall.
Qed.

(** X5.  A cell of a date column, when [coerce_types] returns: it is the
    date [pd.to_datetime] read, or the absent marker when nothing was read.
    A [bad_datetime] issue carrying the raw value is recorded exactly when
    nothing was read although the raw cell was present; in particular a
    cell that parses, and a cell that is absent, are never reported. *)
Theorem date_cell df h f l iss h' col series idx v o :
  h !! df = Some f →
  coerce_types df h = (Ok (l, iss), h') →
  (col, Named "datetime64[D]") ∈ columns →
  get_col f col = Some series →
  series !! idx = Some v →
  pd_to_datetime series !! idx = Some o →
  ∃ g, h' !! l = Some g
    ∧ row_get g idx col
      = Some (match o with Some d => Date d | None => NA end)
    ∧ (mk_issue "bad_datetime" col (Some (idx, v)) ∈ iss
       ↔ o = None ∧ notna v = true)
    ∧ (o ≠ None ∨ notna v = false →
       ∀ i v', i ∈ iss → icol i = col → irest i ≠ Some (idx, v')).
Proof.
  intros Hf Hrun Hcol Hs Hv Ho.
  destruct (coerce_types_Ok_inv _ _ _ _ _ _ Hf Hrun) as (g & Hg & _ & _ & Hl).
  destruct (coerce_frame_col columns f [] iss g col _ columns_NoDup Hg Hcol)
    as (vi & Hvi & Hget).
  rewrite Hs, date_coerce_col in Hvi. injection Hvi as <-. cbn [fst] in Hget.
  assert (Hmine : item_issues f (col, Named "datetime64[D]")
            = bad_issues "bad_datetime" col
                (bad_mask (pd_to_datetime series) series) series).
  { unfold item_issues. cbn [fst snd]. by rewrite Hs, date_coerce_col. }
  destruct (typed_cell_issues "bad_datetime" col (Named "datetime64[D]")
              (pd_to_datetime series) f iss g series idx v o
              Hg Hcol Hmine Hv Ho) as [Honly Hiff].
  exists g. split; [done |]. split; [|split; [done |]].
  - unfold row_get. rewrite Hget. cbn. unfold date_cells.
    by rewrite list_lookup_fmap, Ho.
  - intros Hgood i v' Hi Hic Hrest.
    assert (Hthis : i = mk_issue "bad_datetime" col (Some (idx, v)))
      by (apply Honly; eauto).
    subst i. apply Hiff in Hi as [-> Hpres].
    destruct Hgood as [?|Hn]; [done | congruence].
Qed.

(** ** Text columns, and what an issue can be *)

Lemma text_coerce_col n col series :
  coerce_col n (Some series) col PyStr = Ok (astype_string series, []).
Proof. reflexivity. Qed.

(** X6.  A text column of the schema that the raw table has is copied
    through by [coerce_types]: a string cell keeps its string, an absent
    cell stays absent, and no issue is ever recorded for the column. *)
Theorem text_column_copied df h f l iss h' col series :
  h !! df = Some f →
  coerce_types df h = (Ok (l, iss), h') →
  (col, PyStr) ∈ columns →
  get_col f col = Some series →
  ∃ g, h' !! l = Some g
    ∧ get_col g col = Some (astype_string series)
    ∧ (∀ idx s, series !! idx = Some (Str s) → row_get g idx col = Some (Str s))
    ∧ (∀ idx, series !! idx = Some NA → row_get g idx col = Some NA)
    ∧ ∀ i, i ∈ iss → icol i ≠ col.
Proof.
  intros Hf Hrun Hcol Hs.
  destruct (coerce_types_Ok_inv _ _ _ _ _ _ Hf Hrun) as (g & Hg & _ & _ & Hl).
  destruct (coerce_frame_col columns f [] iss g col _ columns_NoDup Hg Hcol)
    as (vi & Hvi & Hget).
  rewrite Hs, text_coerce_col in Hvi. injection Hvi as <-. cbn [fst] in Hget.
  exists g. split; [done |]. split; [done |]. split; [|split].
  - intros idx s Hidx. unfold row_get. rewrite Hget. cbn.
    unfold astype_string. by rewrite list_lookup_fmap, Hidx.
  - intros idx Hidx. unfold row_get. rewrite Hget. cbn.
    unfold astype_string. by rewrite list_lookup_fmap, Hidx.
  - intros i Hi Hic.
    assert (Hin : i ∈ item_issues f (col, PyStr))
      by (by apply (column_issues f iss g)).
    unfold item_issues in Hin. cbn [fst snd] in Hin.
    rewrite Hs, text_coerce_col in Hin. by apply elem_of_nil in Hin.
Qed.

Lemma item_issues_shape f item (i : issue number) :
  i ∈ item_issues f item →
  (get_col f item.1 = None ∧ i = mk_issue "missing_column" item.1 None)
  ∨ (∃ series idx v,
       get_col f item.1 = Some series
       ∧ series !! idx = Some v ∧ notna v = true
       ∧ icol i = item.1 ∧ irest i = Some (idx, v)
       ∧ ikind i ∈ ["bad_datetime"; "bad_float"; "bad_int"]).
Proof.
  unfold item_issues, coerce_col.
  destruct (get_col f item.1) as [series|].
  - intros Hin. right. exists series. revert Hin. unfold coerce_series.
    repeat match goal with
    | |- context [if ?b then _ else _] => destruct b
    | |- context [match astype_Int64 ?c with _ => _ end] =>
        destruct (astype_Int64 c)
    end; cbn [snd];
    try (intros Hin; by apply elem_of_nil in Hin);
    rewrite elem_of_bad_issues; intros (idx & v & -> & Hm & Hv);
    apply bad_mask_lookup in Hm as (o & v' & _ & Hv' & _ & Hpres);
    rewrite Hv in Hv'; injection Hv' as <-;
    exists idx, v; repeat split; try done; cbn [ikind]; find_elem_of.
  - cbn [snd]. intros Hin. apply list_elem_of_singleton in Hin as ->.
    by left.
Qed.

(** X7.  Every issue [coerce_types] returns is of one of two kinds.  Either
    it is [("missing_column", col, None)] for a schema column the raw table
    lacks; or it is [(kind, col, idx, val)] with [kind] one of
    [bad_datetime], [bad_float], [bad_int], [col] a schema column of the raw
    table and [val] the raw value of that column at row [idx], which is
    present: an absent cell is never reported as a conversion failure. *)
Theorem issues_are_sound df h f l iss h' i :
  h !! df = Some f →
  coerce_types df h = (Ok (l, iss), h') →
  i ∈ iss →
  icol i ∈ required_columns
  ∧ ((i = mk_issue "missing_column" (icol i) None ∧ icol i ∉ labels f)
     ∨ (∃ series idx v,
          get_col f (icol i) = Some series
          ∧ series !! idx = Some v ∧ notna v = true
          ∧ irest i = Some (idx, v)
          ∧ ikind i ∈ ["bad_datetime"; "bad_float"; "bad_int"])).
Proof.
  intros Hf Hrun Hi.
  destruct (coerce_types_Ok_inv _ _ _ _ _ _ Hf Hrun) as (g & Hg & _ & _ & _).
  rewrite (coerce_frame_issues columns f [] iss g columns_NoDup Hg) in Hi.
  cbn [app] in Hi. apply elem_of_flat_map in Hi as (item & Hitem & Hi).
  pose proof (item_issues_icol _ _ _ Hi) as Hic.
  split.
  - rewrite Hic. unfold required_columns. apply list_elem_of_fmap.
    by exists item.
  - apply item_issues_shape in Hi
      as [[Hnone ->]|(series & idx & v & Hs & Hv & Hp & _ & Hr & Hk)].
    + left. cbn [icol]. split; [done |]. by apply assoc_None.
    + right. exists series, idx, v. by rewrite Hic.
Qed.

(** ** No cell and no column is reported twice *)

Lemma mask_zip_fst_sublist {A} mask : ∀ (xs : list A) a,
  (zip (mask_select mask (seq a (length xs))) (mask_select mask xs)).*1
  `sublist_of` seq a (length xs).
Proof.
  induction mask as [|b mask IH]; intros xs a.
  - cbn [mask_select zip zip_with fmap list_fmap]. apply sublist_nil_l.
  - destruct xs as [|x xs]; cbn [length seq mask_select].
    + cbn [zip zip_with fmap list_fmap]. constructor.
    + destruct b.
      * cbn [zip zip_with]. csimpl. apply sublist_skip, IH.
      * apply sublist_cons, IH.
Qed.

(** What an issue is about: its column and, for a cell, its row. *)
Lemma bad_issues_subjects kind col mask series :
  (λ i : issue number, (icol i, fst <$> irest i))
    <$> bad_issues kind col mask series
  = (λ n, (col, Some n))
    <$> (zip (mask_select mask (seq 0 (length series)))
             (mask_select mask series)).*1.
Proof.
  unfold bad_issues.
  induction (zip (mask_select mask (seq 0 (length series)))
                 (mask_select mask series)) as [|[n v] l IH]; [done |].
  csimpl. by rewrite <- IH.
Qed.

Lemma item_issues_subjects_NoDup f item :
  NoDup ((λ i : issue number, (icol i, fst <$> irest i))
           <$> item_issues f item).
Proof.
  unfold item_issues, coerce_col.
  destruct (get_col f item.1) as [series|]; [|apply NoDup_singleton].
  assert (Hbad : ∀ kind mask,
    NoDup ((λ i : issue number, (icol i, fst <$> irest i))
             <$> bad_issues kind item.1 mask series)).
  { intros kind mask. rewrite bad_issues_subjects.
    apply NoDup_fmap_2.
    - intros n1 n2 [= ->]. done.
    - eapply sublist_NoDup; [apply (NoDup_seq 0 (length series)) |].
      apply mask_zip_fst_sublist. }
  unfold coerce_series.
  repeat match goal with
  | |- context [if ?b then _ else _] => destruct b
  | |- context [match astype_Int64 ?c with _ => _ end] =>
      destruct (astype_Int64 c)
  end; cbn [snd]; first [apply Hbad | apply NoDup_nil_2].
Qed.

Lemma flat_map_subjects_NoDup f items :
  NoDup items.*1 →
  NoDup ((λ i : issue number, (icol i, fst <$> irest i))
           <$> flat_map (item_issues f) items).
Proof.
  induction items as [|item rest IH]; intros Hnd; [apply NoDup_nil_2 |].
  csimpl in Hnd. apply NoDup_cons in Hnd as [Hfresh Hnd].
  cbn [flat_map]. rewrite fmap_app. apply NoDup_app.
  split; [apply item_issues_subjects_NoDup |]. split; [|by apply IH].
  intros k Hk Hk'.
  apply list_elem_of_fmap in Hk as (i & -> & Hi).
  apply list_elem_of_fmap in Hk' as (i' & Heq & Hi').
  apply elem_of_flat_map in Hi' as (item' & Hitem' & Hi').
  injection Heq as Hcol _.
  rewrite (item_issues_icol _ _ _ Hi), (item_issues_icol _ _ _ Hi') in Hcol.
  apply Hfresh. rewrite Hcol. apply list_elem_of_fmap. by exists item'.
Qed.

(** X8.  [coerce_types] reports nothing twice: among the issues it returns,
    no two are about the same cell (column and row) and no two are about the
    same missing column. *)
Theorem issues_have_no_duplicates df h f l iss h' :
  h !! df = Some f →
  coerce_types df h = (Ok (l, iss), h') →
  NoDup ((λ i : issue number, (icol i, fst <$> irest i)) <$> iss).
Proof.
  intros Hf Hrun.
  destruct (coerce_types_Ok_inv _ _ _ _ _ _ Hf Hrun) as (g & Hg & _ & _ & _).
  rewrite (coerce_frame_issues columns f [] iss g columns_NoDup Hg).
  cbn [app]. apply flat_map_subjects_NoDup, columns_NoDup.
Qed.

(** ** The findings of [validate_row_level] *)

(** Every finding of the validation, by the branch that appends it. *)
Lemma elem_of_validate_frame df src (r : finding number) :
  r ∈ validate_frame df src ↔
  ∃ idx, idx < nrows df ∧
    ((∃ c, c ∈ required_columns ∧ has_col df c = false
           ∧ r = mk_finding None (Some (idx + 2)) (Some c) "column_missing"
                   None src)
     ∨ (∃ c, c ∈ required_columns ∧ has_col df c = true
             ∧ isna_py (row_get df idx c) = true ∧ c ≠ "Remarks"
             ∧ r = mk_finding (row_get df idx "Plant") (Some (idx + 2))
                     (Some c) "missing_value" None src)
     ∨ (has_col df "Validation" = true
        ∧ isna_py (row_get df idx "Validation") = false
        ∧ (strip (str_py (row_get df idx "Validation"))
           ∉ allowed_validation_vals)
        ∧ r = mk_finding (row_get df idx "Plant") (Some (idx + 2))
                (Some "Validation") "invalid_value"
                (row_get df idx "Validation") src)
     ∨ (has_col df "Reason of Return" = true
        ∧ (isna_py (row_get df idx "Reason of Return") = true
           ∨ strip (str_py (row_get df idx "Reason of Return")) = "")
        ∧ r = mk_finding (row_get df idx "Plant") (Some (idx + 2))
                (Some "Reason of Return") "missing_reason"
                (row_get df idx "Reason of Return") src)).
Proof.
  unfold validate_frame. rewrite elem_of_flat_map.
  apply exist_proper. intros idx.
  rewrite elem_of_seq. unfold validate_row.
  rewrite !elem_of_app, elem_of_flat_map.
  assert (Hrem : ∀ c : string,
    bool_decide (c ∈ ["Remarks"]) = true ↔ c = "Remarks").
  { intros c. rewrite bool_decide_eq_true. apply list_elem_of_singleton. }
  split.
  - intros [Hrange [(c & Hc & Hin)|[Hin|Hin]]]; (split; [lia |]).
    + destruct (has_col df c) eqn:Hhas; cbn [negb] in Hin.
      * destruct (isna_py (row_get df idx c)) eqn:Hna; cbn [andb] in Hin;
          [|by apply elem_of_nil in Hin].
        destruct (bool_decide (c ∈ ["Remarks"])) eqn:Hr; cbn [negb] in Hin;
          [by apply elem_of_nil in Hin |].
        apply list_elem_of_singleton in Hin as ->.
        right. left. exists c. repeat split; try done.
        intros Heq. apply Hrem in Heq. congruence.
      * apply list_elem_of_singleton in Hin as ->. left. by exists c.
    + destruct (has_col df "Validation"); [|by apply elem_of_nil in Hin].
      destruct (isna_py (row_get df idx "Validation")); cbn [negb andb] in Hin;
        [by apply elem_of_nil in Hin |].
      destruct (bool_decide (strip (str_py (row_get df idx "Validation"))
                             ∈ allowed_validation_vals)) eqn:Hv;
        cbn [negb] in Hin; [by apply elem_of_nil in Hin |].
      apply list_elem_of_singleton in Hin as ->.
      right. right. left. split; [done |]. split; [done |].
      split; [by apply bool_decide_eq_false in Hv | done].
    + destruct (has_col df "Reason of Return"); [|by apply elem_of_nil in Hin].
      destruct (isna_py (row_get df idx "Reason of Return")) eqn:Hna;
        cbn [orb] in Hin.
      * apply list_elem_of_singleton in Hin as ->.
        right. right. right. repeat split; try done. by left.
      * destruct (bool_decide
                    (strip (str_py (row_get df idx "Reason of Return")) = ""))
          eqn:Hb; [|by apply elem_of_nil in Hin].
        apply list_elem_of_singleton in Hin as ->.
        right. right. right. repeat split; try done.
        right. by apply bool_decide_eq_true in Hb.
  - intros [Hidx [(c & Hc & Hhas & ->)|[(c & Hc & Hhas & Hna & Hrm & ->)
      |[(Hhas & Hna & Hv & ->)|(Hhas & Hblank & ->)]]]]; (split; [lia |]).
    + left. exists c. split; [done |]. rewrite Hhas. cbn [negb]. by left.
    + left. exists c. split; [done |]. rewrite Hhas, Hna. cbn [negb andb].
      destruct (bool_decide (c ∈ ["Remarks"])) eqn:Hr.
      * apply Hrem in Hr. done.
      * cbn [negb]. by left.
    + right. left. rewrite Hhas, Hna. cbn [negb andb].
      rewrite bool_decide_false by done. cbn [negb]. by left.
    + right. right. rewrite Hhas.
      destruct Hblank as [Hna|Hb].
      * rewrite Hna. cbn [orb]. by left.
      * rewrite (bool_decide_true _ Hb), orb_true_r. by left.
Qed.

(** X9.  Validation has nothing to report exactly when every row is clean:
    every required column is in the table, no cell outside "Remarks" is
    absent, the trimmed "Validation" is [Valid] or [Invalid], and the
    "Reason of Return" is not blank.  In particular a table without rows
    yields no finding. *)
Theorem no_findings_iff_clean df src :
  validate_frame df src = [] ↔
  ∀ idx, idx < nrows df →
    (∀ c, c ∈ required_columns →
       has_col df c = true
       ∧ (c ≠ "Remarks" → isna_py (row_get df idx c) = false))
    ∧ strip (str_py (row_get df idx "Validation")) ∈ allowed_validation_vals
    ∧ strip (str_py (row_get df idx "Reason of Return")) ≠ "".
Proof.
  assert (Hval : "Validation" ∈ required_columns) by find_elem_of.
  assert (Hrea : "Reason of Return" ∈ required_columns) by find_elem_of.
  split.
  - intros Hnil idx Hidx.
    assert (Hno : ∀ r, r ∈ validate_frame df src → False)
      by (intros r Hr; rewrite Hnil in Hr; by apply elem_of_nil in Hr).
    assert (Hcols : ∀ c, c ∈ required_columns →
              has_col df c = true
              ∧ (c ≠ "Remarks" → isna_py (row_get df idx c) = false)).
    { intros c Hc. destruct (has_col df c) eqn:Hhas.
      - split; [done |]. intros Hrm.
        destruct (isna_py (row_get df idx c)) eqn:Hna; [|done].
        exfalso. eapply Hno, elem_of_validate_frame. exists idx.
        split; [done |]. right. left. by exists c.
      - exfalso. eapply Hno, elem_of_validate_frame. exists idx.
        split; [done |]. left. by exists c. }
    split; [done |]. split.
    + destruct (decide (strip (str_py (row_get df idx "Validation"))
                        ∈ allowed_validation_vals)) as [|Hn]; [done |].
      exfalso. eapply Hno, elem_of_validate_frame. exists idx.
      split; [done |]. right. right. left.
      destruct (Hcols _ Hval) as [Hhas Hna]. by rewrite Hhas, Hna.
    + intros Hb. eapply Hno, elem_of_validate_frame. exists idx.
      split; [done |]. right. right. right.
      destruct (Hcols _ Hrea) as [Hhas _]. split; [done |]. split; [|done].
      by right.
  - intros Hclean.
    destruct (validate_frame df src) as [|r rest] eqn:Hfs; [done |].
    exfalso.
    assert (Hr : r ∈ validate_frame df src) by (rewrite Hfs; left).
    apply elem_of_validate_frame in Hr as (idx & Hidx & Hr).
    destruct (Hclean idx Hidx) as (Hcols & Hv & Hb).
    destruct Hr as [(c & Hc & Hhas & _)|[(c & Hc & _ & Hna & Hrm & _)
      |[(_ & _ & Hnv & _)|(_ & [Hna|Hblank] & _)]]].
    + destruct (Hcols c Hc). congruence.
    + destruct (Hcols c Hc) as [_ Hok]. rewrite Hok in Hna; done.
    + done.
    + destruct (Hcols _ Hrea) as [_ Hok]. rewrite Hok in Hna; done.
    + done.
Qed.

(** X10.  Validation reports [invalid_value] for a row exactly when the
    table has a "Validation" column whose cell in that row is present and,
    once trimmed, is neither [Valid] nor [Invalid]; the finding carries the
    cell as it is, the row number (first data row = 2) and the row's
    plant. *)
Theorem invalid_value_iff df src idx :
  idx < nrows df →
  mk_finding (row_get df idx "Plant") (Some (idx + 2)) (Some "Validation")
    "invalid_value" (row_get df idx "Validation") src
    ∈ validate_frame df src
  ↔ has_col df "Validation" = true
    ∧ isna_py (row_get df idx "Validation") = false
    ∧ strip (str_py (row_get df idx "Validation")) ∉ allowed_validation_vals.
Proof.
  intros Hidx. rewrite elem_of_validate_frame. split.
  - intros (idx' & _ & [(c & _ & _ & [=])|[(c & _ & _ & _ & _ & [=])
      |[(Hhas & Hna & Hv & Heq)|(_ & _ & [=])]]]).
    injection Heq as _ Hrow _.
    assert (idx' = idx) as -> by lia. done.
  - intros (Hhas & Hna & Hv). exists idx. split; [done |].
    right. right. by left.
Qed.

(** X11.  Validation reports [missing_value] for a row and a column
    exactly when the column is a required column of the table other than
    "Remarks" and its cell in that row is absent: "Remarks" is never
    reported, and neither is a cell that holds anything, blank strings
    included. *)
Theorem missing_value_iff df src idx col :
  idx < nrows df →
  mk_finding (row_get df idx "Plant") (Some (idx + 2)) (Some col)
    "missing_value" None src ∈ validate_frame df src
  ↔ col ∈ required_columns
    ∧ has_col df col = true
    ∧ col ≠ "Remarks"
    ∧ isna_py (row_get df idx col) = true.
Proof.
  intros Hidx. rewrite elem_of_validate_frame. split.
  - intros (idx' & _ & [(c & _ & _ & [=])|[(c & Hc & Hhas & Hna & Hrm & Heq)
      |[(_ & _ & _ & [=])|(_ & _ & [=])]]]).
    injection Heq as _ Hrow <-.
    assert (idx' = idx) as -> by lia. done.
  - intros (Hc & Hhas & Hrm & Hna). exists idx. split; [done |].
    right. left. by exists col.
Qed.

(** X12.  Validation reports [column_missing] for a row and a column
    exactly when the column is a required column that the table lacks; the
    finding has no plant and no value. *)
Theorem column_missing_iff df src idx col :
  idx < nrows df →
  mk_finding None (Some (idx + 2)) (Some col) "column_missing" None src
    ∈ validate_frame df src
  ↔ col ∈ required_columns ∧ has_col df col = false.
Proof.
  intros Hidx. rewrite elem_of_validate_frame. split.
  - intros (idx' & _ & [(c & Hc & Hhas & Heq)|[(c & _ & _ & _ & _ & [=])
      |[(_ & _ & _ & [=])|(_ & _ & [=])]]]).
    by injection Heq as _ <-.
  - intros (Hc & Hhas). exists idx. split; [done |]. left. by exists col.
Qed.

(** X13.  Every finding of the validation names the source file it was
    given, a required column, and a row number [idx + 2] for a row [idx] of
    the table (the first data row is row 2, the last is row [nrows + 1]),
    and its kind is one of [column_missing], [missing_value],
    [invalid_value], [missing_reason]. *)
Theorem validation_finding_fields df src r :
  r ∈ validate_frame df src →
  f_file r = src
  ∧ (∃ c, f_column r = Some c ∧ c ∈ required_columns)
  ∧ (∃ idx, idx < nrows df ∧ f_row r = Some (idx + 2)
            ∧ (f_issue r ≠ "column_missing" →
               f_plant r = row_get df idx "Plant"))
  ∧ f_issue r ∈ ["column_missing"; "missing_value"; "invalid_value";
                 "missing_reason"].
Proof.
  rewrite elem_of_validate_frame.
  intros (idx & Hidx & [(c & Hc & _ & ->)|[(c & Hc & _ & _ & _ & ->)
    |[(_ & _ & _ & ->)|(_ & _ & ->)]]]); cbn.
  - split; [done |]. split; [by exists c |].
    split; [by exists idx | find_elem_of].
  - split; [done |]. split; [by exists c |].
    split; [by exists idx | find_elem_of].
  - split; [done |]. split; [eexists; split; [done | find_elem_of] |].
    split; [by exists idx | find_elem_of].
  - split; [done |]. split; [eexists; split; [done | find_elem_of] |].
    split; [by exists idx | find_elem_of].
Qed.

(** ** The findings of one source *)

Lemma report_issues_frame_Ok cdf src tis : ∀ errs out,
  report_issues_frame cdf src tis errs = Ok out →
  out = errs ++ map (issue_finding cdf src) tis.
Proof.
  induction tis as [|it rest IH]; intros errs out;
    cbn [report_issues_frame map].
  - intros [= <-]. by rewrite app_nil_r.
  - unfold issue_finding at 1.
    destruct (String.eqb (ikind it) "missing_column").
    { intros Hrun. rewrite (IH _ _ Hrun). by rewrite <- app_assoc. }
    destruct (irest it) as [[idx val]|]; [|done].
    destruct (has_col cdf (icol it) && Nat.ltb idx (nrows cdf));
      [destruct (has_col cdf "Plant");
         [destruct (row_get cdf idx "Plant") eqn:Hp|]|];
      try done;
      intros Hrun; rewrite (IH _ _ Hrun); by rewrite <- app_assoc.
Qed.

Lemma rectangular_row_get f idx col :
  rectangular f → has_col f col = true → idx < nrows f →
  is_Some (row_get f idx col).
Proof.
  intros Hrect Hhas Hidx. apply has_col_get in Hhas as [series Hs].
  unfold row_get. rewrite Hs. cbn. apply lookup_lt_is_Some.
  by rewrite (rectangular_get_col f col series).
Qed.


Lemma strip_labels_rectangular f : rectangular f → rectangular (strip_labels f).
Proof.
  unfold rectangular, strip_labels. cbn [nrows cols]. intros Hall.
  apply Forall_fmap. eapply Forall_impl; [exact Hall |]. by intros [k v].
Qed.






(** ** The master dataset and the error report of a run *)

Lemma ingest_frame_Ok_inv p raw t fs :
  ingest_frame p raw = Ok (t, fs) →
  ∃ iss cdf,
    coerce_frame columns (strip_labels raw) [] = (Ok iss, cdf)
    ∧ t = tag_source cdf p
    ∧ fs = map (issue_finding cdf p) iss ++ validate_frame cdf p.
Proof.
  unfold ingest_frame.
  destruct (coerce_frame columns (strip_labels raw) []) as [[iss|x] cdf]
    eqn:Hc; [|done].
  destruct (report_issues_frame cdf p iss []) as [errs|x] eqn:Hr; [|done].
  intros [= <- <-]. exists iss, cdf. split; [done |]. split; [done |].
  by rewrite (report_issues_frame_Ok _ _ _ _ _ Hr).
Qed.

Lemma main_Ok_inv files h outs h' :
  main files h = (Ok outs, h') →
  files ≠ [] →
  ∃ ts fs,
    ingest_batch files = Ok (ts, fs)
    ∧ master_database outs
      = Some match ts with
             | [] => empty_master
             | _ => {| nrows := sum_list (nrows <$> ts);
                       cols := map (λ c, (c, concat_col ts c))
                                   (concat_labels ts) |}
             end
    ∧ error_report outs = match fs with [] => None | _ => Some fs end.
Proof.
  intros Hmain Hne.
  destruct (main_Ok_batch _ _ _ _ Hmain)
    as [[-> _]|(src & rest & ts & fs & -> & Hb)]; [done |].
  destruct (main_run _ _ h _ _ Hb) as (ext & Hrun).
  rewrite Hrun in Hmain. injection Hmain as <- _. by exists ts, fs.
Qed.

Lemma elem_of_fold_labels (ts : list (frame number)) : ∀ acc c,
  c ∈ fold_left (λ acc f, acc ++ list_difference (labels f) acc) ts acc
  ↔ c ∈ acc ∨ ∃ t, t ∈ ts ∧ c ∈ labels t.
Proof.
  induction ts as [|t ts IH]; intros acc c; cbn [fold_left].
  - split; [by left |]. intros [?|(t & Ht & _)]; [done |].
    by apply elem_of_nil in Ht.
  - rewrite IH, elem_of_app, list_elem_of_difference. split.
    + intros [[?|[? _]]|(t' & Ht' & Hc)].
      * by left.
      * right. exists t. split; [left | done].
      * right. exists t'. split; [by right | done].
    + intros [?|(t' & Ht' & Hc)]; [by left; left |].
      apply elem_of_cons in Ht' as [->|Ht'].
      * left. destruct (decide (c ∈ acc)); [by left | by right].
      * right. by exists t'.
Qed.

Lemma elem_of_concat_labels (ts : list (frame number)) c :
  c ∈ concat_labels ts ↔ ∃ t, t ∈ ts ∧ c ∈ labels t.
Proof.
  unfold concat_labels. rewrite elem_of_fold_labels. split.
  - intros [Hin|?]; [by apply elem_of_nil in Hin | done].
  - by right.
Qed.

Lemma flat_map_Forall2 {A B C} (R : A → B → Prop) (k1 : A → list C)
    (k2 : B → list C) l1 l2 :
  Forall2 R l1 l2 → (∀ x y, R x y → k1 x = k2 y) →
  flat_map k1 l1 = flat_map k2 l2.
Proof.
  intros Hall Hk. induction Hall as [|x y l1 l2 Hxy _ IH]; [done |].
  cbn [flat_map]. by rewrite (Hk x y Hxy), IH.
Qed.

Lemma tag_source_labels cdf p c : c ∈ labels cdf → c ∈ labels (tag_source cdf p).
Proof.
  intros Hc. unfold tag_source. rewrite labels_set_col, elem_of_app. by left.
Qed.

(** X15.  In the master dataset of a run with at least one loaded source,
    the provenance column [__source_file] holds, for each loaded source in
    batch order, the base name of its path once per row of its raw table:
    every row is tagged with the file it came from. *)
Theorem provenance_column files h outs h' m :
  main files h = (Ok outs, h') →
  master_database outs = Some m →
  loaded files ≠ [] →
  get_col m "__source_file"
  = Some (flat_map (λ src, replicate (nrows src.2) (Str (basename src.1)))
                   (loaded files)).
Proof.
  intros Hmain Hm Hloaded.
  assert (Hne : files ≠ []) by (by intros ->).
  destruct (main_Ok_inv _ _ _ _ Hmain Hne) as (ts & fs & Hb & Hmaster & _).
  rewrite Hmaster in Hm. injection Hm as <-.
  pose proof (ingest_batch_tables _ _ _ Hb) as Htabs.
  destruct ts as [|t ts].
  { apply Forall2_nil_inv_r in Htabs. done. }
  assert (Htag : ∀ (src : string * frame number) t',
    (∃ fs1, ingest_frame src.1 src.2 = Ok (t', fs1)) →
    get_col t' "__source_file"
    = Some (replicate (nrows src.2) (Str (basename src.1)))).
  { intros [q raw] t' [fs1 Hin]. cbn [fst snd] in *.
    apply ingest_frame_Ok_inv in Hin as (iss & cdf & Hc & -> & _).
    unfold tag_source. rewrite get_set_col_eq.
    by rewrite (coerce_frame_nrows _ _ _ _ _ Hc). }
  unfold get_col. cbn [cols].
  rewrite (assoc_tabulate (concat_col (t :: ts))).
  - f_equal. unfold concat_col. symmetry.
    apply (flat_map_Forall2 _ _ _ _ _ Htabs).
    intros src t' Hst. by rewrite (Htag src t' Hst).
  - apply elem_of_concat_labels. exists t. split; [left |].
    apply Forall2_cons_inv_r in Htabs as (src & l & Hst & _ & _).
    apply has_col_true, has_col_get. rewrite (Htag src t Hst). eauto.
Qed.

(** X16.  Whenever a run produces a master dataset, the master has every
    column of the schema, whatever columns the sources had (and also when no
    source loaded). *)
Theorem master_has_schema_columns files h outs h' m c :
  main files h = (Ok outs, h') →
  master_database outs = Some m →
  c ∈ required_columns →
  c ∈ labels m.
Proof.
  intros Hmain Hm Hc.
  assert (Hne : files ≠ []).
  { intros ->. injection Hmain as <- _. done. }
  destruct (main_Ok_inv _ _ _ _ Hmain Hne) as (ts & fs & Hb & Hmaster & _).
  rewrite Hmaster in Hm. injection Hm as <-.
  pose proof (ingest_batch_tables _ _ _ Hb) as Htabs.
  destruct ts as [|t ts].
  - unfold empty_master. by rewrite labels_tabulate.
  - rewrite labels_tabulate. apply elem_of_concat_labels.
    exists t. split; [left |].
    apply Forall2_cons_inv_r in Htabs as ([q raw] & l & [fs1 Hin] & _ & _).
    cbn [fst snd] in Hin.
    apply ingest_frame_Ok_inv in Hin as (iss & cdf & Hcdf & -> & _).
    by apply tag_source_labels, (coerce_frame_required _ _ _ _ Hcdf).
Qed.

Lemma ingest_batch_read_error files : ∀ ts fs p e,
  ingest_batch files = Ok (ts, fs) →
  (p, ReadErr e) ∈ files →
  read_error_finding p (Some e) ∈ fs.
Proof.
  induction files as [|[q [raw'|e']] rest IH]; intros ts fs p e;
    cbn [ingest_batch fst snd].
  - intros _ Hin. by apply elem_of_nil in Hin.
  - destruct (ingest_frame q raw') as [[t fs1]|x]; [|done].
    destruct (ingest_batch rest) as [[ts' fs']|x] eqn:Hrest; [|done].
    cbn [fst snd]. intros [= _ <-] Hin.
    apply elem_of_cons in Hin as [[=]|Hin].
    apply elem_of_app. right. by apply (IH ts' fs' p e).
  - destruct (ingest_batch rest) as [[ts' fs']|x] eqn:Hrest; [|done].
    cbn [fst snd]. intros [= _ <-] Hin.
    apply elem_of_cons in Hin as [[= -> ->]|Hin]; [left |].
    right. by apply (IH ts' fs' p e).
Qed.

(** X17.  A source the Reader could not load is always in the error report
    of a run that reaches its artifacts: the report is written and has the
    [read_error] finding of that source, with the Reader's message as value
    and neither row nor column. *)
Theorem unreadable_source_is_reported files h outs h' p e :
  main files h = (Ok outs, h') →
  (p, ReadErr e) ∈ files →
  ∃ led, error_report outs = Some led
    ∧ mk_finding None None None "read_error" (Some (Str e)) p ∈ led.
Proof.
  intros Hmain Hin.
  assert (Hne : files ≠ []).
  { intros ->. by apply elem_of_nil in Hin. }
  destruct (main_Ok_inv _ _ _ _ Hmain Hne) as (ts & fs & Hb & _ & Hled).
  pose proof (ingest_batch_read_error _ _ _ _ _ Hb Hin) as Hfs.
  exists fs. split; [|done]. rewrite Hled.
  destruct fs; [by apply elem_of_nil in Hfs | done].
Qed.

(** ** From the issues of [coerce_types] to the error report *)

Lemma process_source_Ok_inv p raw fr er h fr' er' h' :
  process_source (p, ReadOk raw) fr er h = (Ok (fr', er'), h') →
  ∃ t fs, ingest_frame p raw = Ok (t, fs)
    ∧ fr' = fr ++ [S (length h)] ∧ er' = er ++ fs
    ∧ h' = h ++ [strip_labels raw; t].
Proof.
  rewrite process_source_loaded.
  destruct (ingest_frame p raw) as [[t fs]|x]; [|done].
  cbn [fst snd]. intros [= <- <- <-]. by exists t, fs.
Qed.

Lemma missing_column_issue_iff f iss g c :
  coerce_frame columns f [] = (Ok iss, g) →
  mk_issue "missing_column" c None ∈ iss
  ↔ c ∈ required_columns ∧ c ∉ labels f.
Proof.
  intros Hg.
  rewrite (coerce_frame_issues columns f [] iss g columns_NoDup Hg).
  cbn [app]. rewrite elem_of_flat_map. split.
  - intros (item & Hitem & Hi).
    apply item_issues_shape in Hi
      as [[Hnone [= ->]]|(? & ? & ? & _ & _ & _ & _ & [=] & _)].
    split; [|by apply assoc_None].
    unfold required_columns. apply list_elem_of_fmap. by exists item.
  - intros [Hc Hnot]. destruct (required_item c Hc) as [dt Hdt].
    exists (c, dt). split; [done |].
    unfold item_issues. cbn [fst snd].
    replace (get_col f c) with (@None (list (cell number)))
      by (symmetry; by apply assoc_None).
    cbn [coerce_col snd]. by left.
Qed.

Lemma labels_strip_labels f : labels (strip_labels f) = strip <$> labels f.
Proof.
  unfold labels, strip_labels. cbn [cols].
  induction (cols f) as [|[k v] l IH]; [done |]. csimpl. by rewrite IH.
Qed.

Lemma issue_kind_missing_column f iss g (it : issue number) :
  coerce_frame columns f [] = (Ok iss, g) →
  it ∈ iss → ikind it = "missing_column" →
  it = mk_issue "missing_column" (icol it) None.
Proof.
  intros Hg Hit Hk.
  rewrite (coerce_frame_issues columns f [] iss g columns_NoDup Hg) in Hit.
  cbn [app] in Hit. apply elem_of_flat_map in Hit as (item & _ & Hit).
  apply item_issues_shape in Hit
    as [[_ ->]|(? & ? & ? & _ & _ & _ & _ & _ & Hbad)]; [done |].
  rewrite Hk in Hbad.
  repeat (apply elem_of_cons in Hbad as [[=]|Hbad]).
  by apply elem_of_nil in Hbad.
Qed.

(** X18.  For a source that loads, the findings it adds to the error report
    include [missing_column] for a column exactly when that column is in
    the schema and no header of the raw table is that name once trimmed.  So
    a header that differs from a schema name only by surrounding whitespace
    is recognised, and a column outside the schema is never reported. *)
Theorem missing_column_reported_iff p raw fr er h fr' er' h' c :
  process_source (p, ReadOk raw) fr er h = (Ok (fr', er'), h') →
  ∃ fs, er' = er ++ fs
    ∧ (mk_finding None None (Some c) "missing_column" None p ∈ fs
       ↔ c ∈ required_columns ∧ ∀ c', c' ∈ labels raw → strip c' ≠ c).
Proof.
  intros Hrun.
  apply process_source_Ok_inv in Hrun as (t & fs & Hin & _ & -> & _).
  apply ingest_frame_Ok_inv in Hin as (iss & cdf & Hc & _ & ->).
  eexists. split; [done |].
  assert (Hlabels : c ∉ labels (strip_labels raw)
                    ↔ ∀ c', c' ∈ labels raw → strip c' ≠ c).
  { rewrite labels_strip_labels, list_elem_of_fmap. split.
    - intros Hnot c' Hc' Heq. apply Hnot. by exists c'.
    - intros Hall (c' & -> & Hc'). by apply (Hall c'). }
  rewrite <- Hlabels, <- (missing_column_issue_iff _ _ _ c Hc).
  rewrite elem_of_app. split.
  - intros [Hmap|Hval].
    + apply list_elem_of_fmap in Hmap as (it & Heq & Hit).
      unfold issue_finding in Heq.
      destruct (String.eqb (ikind it) "missing_column") eqn:Hk.
      * apply String.eqb_eq in Hk. injection Heq as Hcol. subst c.
        by rewrite <- (issue_kind_missing_column _ _ _ _ Hc Hit Hk).
      * apply String.eqb_neq in Hk. apply (f_equal f_issue) in Heq.
        cbn [f_issue] in Heq. congruence.
    + apply elem_of_validate_frame in Hval
        as (idx & _ & [(? & _ & _ & [=])|[(? & _ & _ & _ & _ & [=])
          |[(_ & _ & _ & [=])|(_ & _ & [=])]]]).
  - intros Hit. left. apply list_elem_of_fmap.
    by exists (mk_issue "missing_column" c None).
Qed.

(** X19.  For a source with a rectangular table, every cell issue that
    [coerce_types] returns for it reaches the error report as one finding:
    same column, same kind, the raw value as offending value, row number
    [idx + 2] (the first data row is row 2), the source's path, and as
    plant the coerced "Plant" cell of that row. *)
Theorem cell_issue_reaches_report p raw fr er h fr' er' h' iss cdf it idx v :
  rectangular raw →
  process_source (p, ReadOk raw) fr er h = (Ok (fr', er'), h') →
  coerce_types 0 [strip_labels raw]
  = (Ok (1, iss), [strip_labels raw; cdf]) →
  it ∈ iss →
  irest it = Some (idx, v) →
  mk_finding (row_get cdf idx "Plant") (Some (idx + 2)) (Some (icol it))
    (ikind it) (Some v) p ∈ er'
  ∧ is_Some (row_get cdf idx "Plant").
Proof.
  intros Hrect Hrun Hco Hit Hrest.
  apply process_source_Ok_inv in Hrun as (t & fs & Hin & _ & -> & _).
  apply ingest_frame_Ok_inv in Hin as (iss' & cdf' & Hc & _ & ->).
  destruct (coerce_types_Ok_inv 0 [strip_labels raw] (strip_labels raw)
              _ _ _ eq_refl Hco) as (g & Hg & _ & Hheap & _).
  cbn [app] in Hheap. injection Hheap as Hcdf. subst g.
  rewrite Hc in Hg. injection Hg as Hiss Hcdf. subst iss' cdf'.
  assert (Hrc : rectangular cdf).
  { eapply coerce_frame_rectangular; [|exact Hc].
    by apply strip_labels_rectangular. }
  assert (Hplant : has_col cdf "Plant" = true).
  { apply has_col_true, (coerce_frame_required _ _ _ _ Hc). find_elem_of. }
  pose proof Hit as Hshape.
  rewrite (coerce_frame_issues _ _ _ _ _ columns_NoDup Hc) in Hshape.
  cbn [app] in Hshape. apply elem_of_flat_map in Hshape as (item & Hitem & Hi).
  pose proof (item_issues_icol _ _ _ Hi) as Hic.
  apply item_issues_shape in Hi
    as [[_ ->]|(series & idx' & v' & Hs & Hv & _ & _ & Hr & Hbad)]; [done |].
  rewrite Hrest in Hr. injection Hr as <- <-.
  assert (Hidx : idx < nrows cdf).
  { rewrite (coerce_frame_nrows _ _ _ _ _ Hc).
    rewrite <- (rectangular_get_col (strip_labels raw) item.1 series);
      [by eapply lookup_lt_Some | by apply strip_labels_rectangular | done]. }
  assert (Hcol : has_col cdf (icol it) = true).
  { apply has_col_true, (coerce_frame_required _ _ _ _ Hc).
    rewrite Hic. unfold required_columns. apply list_elem_of_fmap.
    by exists item. }
  assert (Hk : String.eqb (ikind it) "missing_column" = false).
  { apply String.eqb_neq. intros Heq. rewrite Heq in Hbad.
    repeat (apply elem_of_cons in Hbad as [[=]|Hbad]).
    by apply elem_of_nil in Hbad. }
  split; [|by apply rectangular_row_get].
  apply elem_of_app. right. apply elem_of_app. left.
  apply list_elem_of_fmap. exists it. split; [|done].
  unfold issue_finding. rewrite Hk, Hrest, Hcol, Hplant.
  apply Nat.ltb_lt in Hidx. by rewrite Hidx.
Qed.

(** ** Sources are processed independently *)

Lemma main_loop_Ok_inv files fr er h fr' er' h' :
  main_loop files fr er h = (Ok (fr', er'), h') →
  ∃ ts fs locs ext,
    ingest_batch files = Ok (ts, fs)
    ∧ fr' = fr ++ locs ∧ er' = er ++ fs ∧ h' = h ++ ext
    ∧ Forall2 (λ l t, h' !! l = Some t) locs ts.
Proof.
  intros Hrun.
  destruct (ingest_batch files) as [[ts fs]|x] eqn:Hb.
  - destruct (main_loop_ok files fr er h ts fs Hb)
      as (locs & ext & Hok & Hall).
    rewrite Hok in Hrun. injection Hrun as <- <- <-.
    by exists ts, fs, locs, ext.
  - pose proof (main_loop_raise files fr er h x Hb) as Hr.
    by rewrite Hrun in Hr.
Qed.

Lemma ingest_batch_app a : ∀ b,
  ingest_batch (a ++ b)
  = match ingest_batch a with
    | Ok ta =>
        match ingest_batch b with
        | Ok tb => Ok (ta.1 ++ tb.1, ta.2 ++ tb.2)
        | Raise x => Raise x
        end
    | Raise x => Raise x
    end.
Proof.
  induction a as [|[q [raw|e]] a IH]; intros b;
    cbn [app ingest_batch fst snd].
  - by destruct (ingest_batch b) as [[? ?]|].
  - destruct (ingest_frame q raw) as [[t fs]|x]; [|done].
    rewrite IH. destruct (ingest_batch a) as [[ta fa]|x]; [|done].
    destruct (ingest_batch b) as [[tb fb]|x]; [|done].
    cbn [fst snd]. by rewrite app_assoc.
  - rewrite IH. destruct (ingest_batch a) as [[ta fa]|x]; [|done].
    by destruct (ingest_batch b) as [[tb fb]|x].
Qed.

Lemma lookup_all_tables (h : list (frame number)) locs ts :
  Forall2 (λ l t, h !! l = Some t) locs ts →
  (λ l, h !! l) <$> locs = Some <$> ts.
Proof.
  induction 1 as [|l t locs ts Hl _ IH]; [done |]. csimpl. by rewrite Hl, IH.
Qed.

(** X20.  Sources are processed independently of each other.  If the loop
    completes on a batch [a] and on a batch [b], each on its own, it
    completes on [a ++ b], and then the findings are those of [a] followed
    by those of [b], and the tables in [all_frames] are those of [a]
    followed by those of [b]. *)
Theorem batches_compose a b h h0 fa ea ha fb eb hb :
  main_loop a [] [] h = (Ok (fa, ea), ha) →
  main_loop b [] [] h0 = (Ok (fb, eb), hb) →
  ∃ fab hab,
    main_loop (a ++ b) [] [] h = (Ok (fab, ea ++ eb), hab)
    ∧ (λ l, hab !! l) <$> fab
      = ((λ l, ha !! l) <$> fa) ++ ((λ l, hb !! l) <$> fb).
Proof.
  intros Ha Hb.
  apply main_loop_Ok_inv in Ha
    as (ta & ea' & la & xa & Hia & -> & -> & -> & Halla).
  apply main_loop_Ok_inv in Hb
    as (tb & eb' & lb & xb & Hib & -> & -> & -> & Hallb).
  assert (Hab : ingest_batch (a ++ b) = Ok (ta ++ tb, ea' ++ eb'))
    by (by rewrite ingest_batch_app, Hia, Hib).
  destruct (main_loop_ok (a ++ b) [] [] h _ _ Hab)
    as (lab & xab & Hrun & Hallab).
  exists lab, (h ++ xab). split; [done |]. cbn [app].
  rewrite (lookup_all_tables _ _ _ Hallab), (lookup_all_tables _ _ _ Halla),
    (lookup_all_tables _ _ _ Hallb).
  by rewrite fmap_app.
Qed.

(** X21.  Processing a source never changes a DataFrame that existed
    before, whether it returns or raises; and for a source that loads, the
    raw table object it created then holds the raw cells under the trimmed
    headers. *)
Theorem process_source_keeps_tables src fr er h l g :
  h !! l = Some g →
  (process_source src fr er h).2 !! l = Some g
  ∧ ∀ raw, src.2 = ReadOk raw →
      (process_source src fr er h).2 !! length h = Some (strip_labels raw).
Proof.
  intros Hl. destruct src as [p [raw|e]]; cbn [snd].
  - rewrite process_source_loaded. cbn [snd]. split.
    + rewrite lookup_app_l; [done |]. by eapply lookup_lt_Some.
    + intros raw' [= <-]. by apply list_lookup_middle.
  - rewrite process_source_unreadable. cbn [snd]. split; [done |].
    intros raw [=].
Qed.

End Extras.

(** * C4: the master dataset is the loaded tables, row after row *)

Section Master.
Context `{Pandas}.

Implicit Types (t : frame number) (ts : list (frame number)) (col : string).

(** A position in a concatenation: the [j]-th element of the [k]-th block
    lies after the blocks before it. *)
Lemma lookup_flat_map_block {A B} (g : A → list B) (n : A → nat)
    (l : list A) : ∀ k a j,
  Forall (λ x, length (g x) = n x) l →
  l !! k = Some a → j < n a →
  flat_map g l !! (sum_list (n <$> take k l) + j) = g a !! j.
Proof.
  induction l as [|x l IH]; intros k a j Hlen Hk Hj; [done |].
  apply Forall_cons in Hlen as [Hx Hlen]. cbn [flat_map].
  destruct k as [|k].
  - injection Hk as ->. cbn. apply lookup_app_l. lia.
  - cbn in Hk. cbn [take]. csimpl.
    rewrite lookup_app_r by lia.
    replace (n x + sum_list (n <$> take k l) + j - length (g x))
      with (sum_list (n <$> take k l) + j) by lia.
    by apply IH.
Qed.

(** The values one table gives to a column of the concatenation. *)
Lemma block_length t col :
  rectangular t →
  length (match get_col t col with
          | Some s => s
          | None => replicate (nrows t) NA
          end) = nrows t.
Proof.
  intros Hrect. destruct (get_col t col) as [s|] eqn:Hs.
  - by apply (rectangular_get_col t col).
  - apply length_replicate.
Qed.

Lemma concat_col_length ts col :
  Forall rectangular ts → length (concat_col ts col) = sum_list (nrows <$> ts).
Proof.
  unfold concat_col. induction 1 as [|t ts Ht _ IH]; [done |].
  cbn [flat_map]. csimpl. by rewrite length_app, block_length, IH.
Qed.

Lemma fold_labels_NoDup ts : ∀ acc,
  NoDup acc → Forall (λ t, NoDup (labels t)) ts →
  NoDup (fold_left (λ acc f, acc ++ list_difference (labels f) acc) ts acc).
Proof.
  induction ts as [|t ts IH]; intros acc Hacc Hall; cbn [fold_left]; [done |].
  apply Forall_cons in Hall as [Ht Hall]. apply IH; [|done].
  apply NoDup_app. split; [done |]. split.
  - intros c Hc Hd. by apply list_elem_of_difference in Hd as [_ ?].
  - by apply NoDup_list_difference.
Qed.

(** The table a loaded source adds to [all_frames]. *)
Lemma ingest_frame_table_shape p raw t fs :
  ingest_frame p raw = Ok (t, fs) →
  (rectangular raw → rectangular t)
  ∧ (NoDup (labels (strip_labels raw)) → NoDup (labels t)).
Proof.
  intros Hin.
  apply ingest_frame_Ok_inv in Hin as (iss & cdf & Hc & -> & _). split.
  - intros Hrect. unfold tag_source. apply rectangular_set_col.
    + eapply coerce_frame_rectangular; [|exact Hc].
      by apply strip_labels_rectangular.
    + apply length_replicate.
  - intros Hnd.
    assert (Hcdf : NoDup (labels cdf)).
    { rewrite (coerce_frame_labels _ _ _ _ _ columns_NoDup Hc).
      apply NoDup_app. split; [done |]. split.
      - intros c Hc1 Hc2. by apply list_elem_of_filter in Hc2 as [? _].
      - apply NoDup_filter, columns_NoDup. }
    unfold tag_source. rewrite labels_set_col.
    destruct (decide ("__source_file" ∈ labels cdf)) as [|Hfresh].
    + by rewrite app_nil_r.
    + apply NoDup_app. split; [done |]. split; [|apply NoDup_singleton].
      intros c Hc1 Hc2. by apply list_elem_of_singleton in Hc2 as ->.
Qed.

Lemma tables_shape (l : list (string * frame number)) ts :
  Forall2 (λ src t, ∃ fs1, ingest_frame src.1 src.2 = Ok (t, fs1)) l ts →
  (∀ p raw, (p, raw) ∈ l →
     rectangular raw ∧ NoDup (labels (strip_labels raw))) →
  Forall (λ t, rectangular t ∧ NoDup (labels t)) ts.
Proof.
  induction 1 as [|[q raw] t l ts [fs1 Hin] _ IH]; intros Hdom; [done |].
  cbn [fst snd] in Hin.
  destruct (Hdom q raw) as [Hrect Hnd]; [left |].
  destruct (ingest_frame_table_shape _ _ _ _ Hin) as [Hr Hn].
  constructor; [by auto |]. apply IH. intros p raw' Hp.
  apply (Hdom p). by right.
Qed.

(** C4.  When the run produces a master dataset, there is one table per
    source that loaded, in batch order: what [coerce_types] returns on that
    source's raw table (headers trimmed), tagged with its file, with the row
    count of the raw table.  The master has as many rows as those tables
    together; its labels are the labels of the tables (the schema columns
    when no source loaded); and the values under each label are the values
    the tables have under it, laid end to end in batch order, with one absent
    marker per row of a table that lacks the label.  For tables as pandas has
    them (one value per row in every column, distinct labels) the master has
    one value per row too, its labels are distinct, and row [j] of the
    [k]-th table is the master's row number [j] after the rows of the tables
    before it: rows are neither reordered nor interleaved. *)
Theorem master_is_concatenation files h outs h' m :
  main files h = (Ok outs, h') →
  master_database outs = Some m →
  ∃ tables,
    Forall2 (λ src t, ∃ iss cdf,
               coerce_types 0 [strip_labels src.2]
               = (Ok (1, iss), [strip_labels src.2; cdf])
               ∧ t = tag_source cdf src.1
               ∧ nrows t = nrows src.2)
            (loaded files) tables
    ∧ nrows m = sum_list ((λ src, nrows src.2) <$> loaded files)
    ∧ (∀ col, col ∈ labels m
              ↔ (tables = [] ∧ col ∈ required_columns)
                ∨ ∃ t, t ∈ tables ∧ col ∈ labels t)
    ∧ (∀ col v, (col, v) ∈ cols m →
         v = flat_map (λ t, match get_col t col with
                            | Some s => s
                            | None => replicate (nrows t) NA
                            end) tables)
    ∧ ((∀ p raw, (p, raw) ∈ loaded files →
          rectangular raw ∧ NoDup (labels (strip_labels raw))) →
       rectangular m
       ∧ NoDup (labels m)
       ∧ ∀ k t j col,
           tables !! k = Some t → j < nrows t → col ∈ labels m →
           row_get m (sum_list (nrows <$> take k tables) + j) col
           = Some (default NA (row_get t j col))).
Proof.
  intros Hmain Hm.
  assert (Hne : files ≠ []).
  { intros ->. injection Hmain as <- _. done. }
  destruct (main_Ok_inv _ _ _ _ Hmain Hne) as (ts & fs & Hb & Hmaster & _).
  rewrite Hmaster in Hm. injection Hm as <-.
  pose proof (ingest_batch_tables _ _ _ Hb) as Htabs.
  exists ts. split; [|split; [|split; [|split]]].
  - eapply Forall2_impl; [exact Htabs |].
    intros [q raw] t [fs1 Hin]. cbn [fst snd] in *.
    destruct (ingest_frame_table _ _ _ _ Hin) as (iss & cdf & ? & ? & ?).
    by exists iss, cdf.
  - rewrite <- (sum_nrows_tables (loaded files) ts).
    + by destruct ts.
    + eapply Forall2_impl; [exact Htabs |].
      intros [q raw] t [fs1 Hin]. cbn [fst snd] in *.
      by destruct (ingest_frame_table _ _ _ _ Hin) as (? & ? & _ & _ & ?).
  - intros col. destruct ts as [|t ts].
    + unfold empty_master. rewrite labels_tabulate. split; [by left |].
      intros [[_ ?]|(t & Ht & _)]; [done | by apply elem_of_nil in Ht].
    + rewrite labels_tabulate, elem_of_concat_labels. split; [by right |].
      by intros [[? _]|?].
  - intros col v Hin. destruct ts as [|t ts].
    + unfold empty_master in Hin. cbn [cols] in Hin.
      by apply list_elem_of_fmap in Hin as (c & [= -> ->] & _).
    + cbn [cols] in Hin.
      by apply list_elem_of_fmap in Hin as (c & [= -> ->] & _).
  - intros Hdom.
    pose proof (tables_shape _ _ Htabs Hdom) as Hshape.
    assert (Hrect : Forall rectangular ts).
    { eapply Forall_impl; [exact Hshape |]. by intros t [? _]. }
    assert (Hnd : Forall (λ t, NoDup (labels t)) ts).
    { eapply Forall_impl; [exact Hshape |]. by intros t [_ ?]. }
    destruct ts as [|t0 ts].
    { split; [|split].
      - unfold rectangular, empty_master. cbn [nrows cols].
        apply Forall_fmap, Forall_forall. by intros c _.
      - unfold empty_master. rewrite labels_tabulate. apply columns_NoDup.
      - intros k t j col Hk. done. }
    split; [|split].
    + unfold rectangular. cbn [nrows cols]. apply Forall_fmap, Forall_forall.
      intros c _. cbn [snd]. by apply concat_col_length.
    + rewrite labels_tabulate. unfold concat_labels.
      apply fold_labels_NoDup; [constructor | done].
    + intros k t j col Hk Hj Hcol. rewrite labels_tabulate in Hcol.
      unfold row_get at 1. unfold get_col at 1. cbn [cols].
      rewrite (assoc_tabulate (concat_col (t0 :: ts))) by done.
      cbn [mbind option_bind]. unfold concat_col.
      rewrite (lookup_flat_map_block _ nrows (t0 :: ts) k t j); [| |done|done].
      * assert (Ht : rectangular t).
        { apply (proj1 (Forall_forall _ _) Hrect).
          by apply list_elem_of_lookup_2 in Hk. }
        unfold row_get. destruct (get_col t col) as [s|] eqn:Hs; csimpl.
        -- destruct (lookup_lt_is_Some_2 s j) as [c Hc].
           { rewrite (rectangular_get_col t col s Ht Hs). done. }
           by rewrite Hc.
        -- by rewrite lookup_replicate_2.
      * eapply Forall_impl; [exact Hrect |]. intros t'. apply block_length.
Qed.

End Master.

(** * The pipeline on explicit tables

    Evaluations with the reference instance [ref_pandas]. *)

(** Runs [coerce_types] and gives its reference, issues and final heap as
    the three witnesses of the goal. *)
Ltac exists_coerced t :=
  let r := eval vm_compute in t in
  match r with
  | (Ok (?l, ?iss), ?h) => exists l, iss, h
  end.

(** Runs [main] and gives the artifacts, final heap and master as the three
    witnesses of the goal. *)
Ltac exists_master t :=
  let r := eval vm_compute in t in
  match r with
  | (Ok (mk_outputs (Some ?m) ?led), ?h) =>
      exists (mk_outputs (Some m) led), h, m
  end.

Ltac by_run := vm_compute; reflexivity.

Ltac find_elem :=
  solve [repeat first [apply list_elem_of_here | apply list_elem_of_further]].

Ltac by_decide := apply (bool_decide_unpack _); vm_compute; exact I.

Lemma coerce_types_leaves_input_witness :
  (coerce_types (H:=ref_pandas) 0 [table_a]).2 !! 0 = Some table_a.
Proof.
  exact (proj1 (coerce_types_leaves_input (H:=ref_pandas) 0 [table_a] table_a
                  eq_refl)).
Defined.

Lemma coerce_types_columns_witness :
  ∃ l iss h',
    coerce_types (H:=ref_pandas) 0 [table_extra] = (Ok (l, iss), h')
    ∧ ∃ g, h' !! l = Some g
      ∧ nrows g = nrows table_extra
      ∧ labels g = labels table_extra
                   ++ filter (λ c, c ∉ labels table_extra) required_columns
      ∧ (∀ c, c ∈ required_columns → c ∈ labels g)
      ∧ (∀ c, c ∈ required_columns → c ∉ labels table_extra →
           get_col g c = Some (replicate (nrows table_extra) NA)
           ∧ mk_issue "missing_column" c None ∈ iss)
      ∧ (∀ c, c ∉ required_columns → get_col g c = get_col table_extra c).
Proof.
  exists_coerced (coerce_types (H:=ref_pandas) 0 [table_extra]).
  split; [by_run |].
  apply (coerce_types_columns (H:=ref_pandas) 0 [table_extra] table_extra);
    [reflexivity | by_run].
Defined.

Lemma validate_after_coerce_no_column_missing_witness :
  ∃ l iss h',
    coerce_types (H:=ref_pandas) 0 [table_extra] = (Ok (l, iss), h')
    ∧ ∃ g, h' !! l = Some g
      ∧ (∀ c, c ∈ required_columns → has_col g c = true)
      ∧ validate_row_level l "a.csv" h' = (Ok (validate_frame g "a.csv"), h')
      ∧ ∀ r, r ∈ validate_frame g "a.csv" → f_issue r ≠ "column_missing".
Proof.
  exists_coerced (coerce_types (H:=ref_pandas) 0 [table_extra]).
  split; [by_run |].
  eapply (validate_after_coerce_no_column_missing (H:=ref_pandas)
            0 [table_extra] table_extra);
    [reflexivity | by_run].
Defined.

Lemma coerce_types_raises_on_non_integral_witness :
  (coerce_types (H:=ref_pandas) 0 [table_b]).1 = Raise TypeError.
Proof.
  apply (coerce_types_raises_on_non_integral (H:=ref_pandas)
           0 [table_b] table_b [Str "3.7"] 0 (mk_decimal 37 1));
    reflexivity.
Defined.

Lemma main_aborts_on_non_integral_code_witness :
  ∃ e, (main (H:=ref_pandas)
          ([src_a] ++ ("b.csv", ReadOk table_b) :: [src_unreadable])
          []).1 = Raise e.
Proof.
  apply (main_aborts_on_non_integral_code (H:=ref_pandas)
           [src_a] "b.csv" table_b [src_unreadable] []
           [Str "3.7"] 0 (mk_decimal 37 1));
    reflexivity.
Defined.

Lemma bad_datetime_cell_witness :
  ∃ l iss h',
    coerce_types (H:=ref_pandas) 0 [table_date] = (Ok (l, iss), h')
    ∧ ∃ g, h' !! l = Some g
      ∧ nrows g = nrows table_date
      ∧ row_get g 0 "Date Delivered" = Some NA
      ∧ mk_issue "bad_datetime" "Date Delivered" (Some (0, Str "soon")) ∈ iss
      ∧ (∀ i, i ∈ iss → icol i = "Date Delivered" → ikind i = "bad_datetime")
      ∧ (∀ i v', i ∈ iss → icol i = "Date Delivered" →
           irest i = Some (0, v') →
           i = mk_issue "bad_datetime" "Date Delivered" (Some (0, Str "soon"))).
Proof.
  exists_coerced (coerce_types (H:=ref_pandas) 0 [table_date]).
  split; [by_run |].
  apply (bad_datetime_cell (H:=ref_pandas) 0 [table_date] table_date _ _ _
           "Date Delivered" [Str "soon"] 0 (Str "soon")).
  - reflexivity.
  - by_run.
  - unfold columns. apply list_elem_of_further, list_elem_of_further.
    apply list_elem_of_here.
  - reflexivity.
  - reflexivity.
  - reflexivity.
  - reflexivity.
Defined.

Lemma reason_of_return_findings_witness :
  mk_finding (row_get (H:=ref_pandas) table_reason 0 "Plant") (Some (0 + 2))
    (Some "Reason of Return") "missing_reason"
    (row_get table_reason 0 "Reason of Return") "a.csv"
    ∈ validate_frame table_reason "a.csv"
  ∧ (mk_finding (row_get table_reason 0 "Plant") (Some (0 + 2))
       (Some "Reason of Return") "missing_value" None "a.csv"
       ∈ validate_frame table_reason "a.csv"
     ↔ isna_py (row_get table_reason 0 "Reason of Return") = true).
Proof.
  apply (reason_of_return_findings (H:=ref_pandas) table_reason "a.csv" 0).
  - reflexivity.
  - simpl. lia.
  - reflexivity.
Defined.

Lemma master_is_concatenation_witness :
  ∃ outs h' m,
    main (H:=ref_pandas) [src_a; src_unreadable; src_extra] []
    = (Ok outs, h')
    ∧ master_database outs = Some m
    ∧ ∃ tables,
        Forall2 (λ src t, ∃ iss cdf,
                   coerce_types 0 [strip_labels src.2]
                   = (Ok (1, iss), [strip_labels src.2; cdf])
                   ∧ t = tag_source cdf src.1
                   ∧ nrows t = nrows src.2)
                (loaded [src_a; src_unreadable; src_extra]) tables
        ∧ nrows m = 3
        ∧ (∀ col, col ∈ labels m
                  ↔ (tables = [] ∧ col ∈ required_columns)
                    ∨ ∃ t, t ∈ tables ∧ col ∈ labels t)
        ∧ (∀ col v, (col, v) ∈ cols m →
             v = flat_map (λ t, match get_col t col with
                                | Some s => s
                                | None => replicate (nrows t) NA
                                end) tables)
        ∧ rectangular m
        ∧ NoDup (labels m)
        ∧ ∀ k t j col,
            tables !! k = Some t → j < nrows t → col ∈ labels m →
            row_get m (sum_list (nrows <$> take k tables) + j) col
            = Some (default NA (row_get t j col)).
Proof.
  exists_master (main (H:=ref_pandas) [src_a; src_unreadable; src_extra] []).
  split; [by_run |]. split; [reflexivity |].
  edestruct (master_is_concatenation (H:=ref_pandas)
               [src_a; src_unreadable; src_extra] [])
    as (tables & Htabs & Hrows & Hlabels & Hcols & Hshape);
    [by_run | reflexivity |].
  exists tables. split; [exact Htabs |]. split; [exact Hrows |].
  split; [exact Hlabels |]. split; [exact Hcols |].
  apply Hshape. intros p raw Hin. vm_compute in Hin.
  apply elem_of_cons in Hin as [[= -> ->]|Hin];
    [split; [repeat constructor | by_decide] |].
  apply elem_of_cons in Hin as [[= -> ->]|Hin];
    [split; [repeat constructor | by_decide] |].
  by apply elem_of_nil in Hin.
Defined.

Lemma main_empty_batch_witness :
  main (H:=ref_pandas) [] [] = (Ok (mk_outputs None None), []).
Proof.
  exact (proj1 (main_empty_batch (H:=ref_pandas) [] []
                  (mk_outputs None None) [] eq_refl)).
Defined.

(** C1 (counterexample).  A raw table with a column "Extra": the coerced
    table, and the master built from it, still have that column, which is
    not a schema column. *)
Lemma extra_column_is_kept :
  (∃ l iss h',
     coerce_types (H:=ref_pandas) 0 [table_extra] = (Ok (l, iss), h')
     ∧ ∃ g, h' !! l = Some g
       ∧ "Extra" ∈ labels g
       ∧ get_col g "Extra" = Some [Str "x"])
  ∧ ("Extra" ∉ required_columns)
  ∧ ∃ outs h' m,
      main (H:=ref_pandas) [src_extra] [] = (Ok outs, h')
      ∧ master_database outs = Some m
      ∧ "Extra" ∈ labels m.
Proof.
  split; [|split].
  - exists_coerced (coerce_types (H:=ref_pandas) 0 [table_extra]).
    split; [by_run |]. eexists. split; [reflexivity |].
    split; [by_decide | reflexivity].
  - by_decide.
  - exists_master (main (H:=ref_pandas) [src_extra] []).
    split; [by_run |]. split; [reflexivity | by_decide].
Qed.

(** C6 (counterexample).  On the empty batch no master dataset is
    produced. *)
Lemma empty_batch_writes_no_master :
  ¬ ∃ m led h',
      main (H:=ref_pandas) [] [] = (Ok (mk_outputs (Some m) led), h').
Proof. intros (m & led & h' & Hmain). discriminate Hmain. Qed.

(** C7 (counterexample).  A delivery date that is not a date is reported
    with the kind [bad_datetime]; no issue has the kind [bad_date], and
    [bad_datetime] is not a kind of the specification's list. *)
Lemma date_issue_kind_is_bad_datetime :
  (∃ l iss h',
     coerce_types (H:=ref_pandas) 0 [table_date] = (Ok (l, iss), h')
     ∧ mk_issue "bad_datetime" "Date Delivered" (Some (0, Str "soon")) ∈ iss
     ∧ Forall (λ i, ikind i ≠ "bad_date") iss)
  ∧ "bad_datetime" ∉ spec_error_kinds.
Proof.
  split.
  - exists_coerced (coerce_types (H:=ref_pandas) 0 [table_date]).
    split; [by_run |]. split.
    + find_elem.
    + repeat constructor; done.
  - by_decide.
Qed.

(** C8 (counterexample).  A reason of blanks only, in the first data row
    (row 2): the error report has a [missing_reason] finding for that cell
    and no [missing_value] finding for it. *)
Lemma blank_reason_gets_missing_reason_only :
  ∃ outs h' led,
    main (H:=ref_pandas) [src_reason] [] = (Ok outs, h')
    ∧ error_report outs = Some led
    ∧ Exists (λ r, f_issue r = "missing_reason" ∧ f_row r = Some 2
                   ∧ f_column r = Some "Reason of Return") led
    ∧ Forall (λ r, ¬ (f_issue r = "missing_value" ∧ f_row r = Some 2
                      ∧ f_column r = Some "Reason of Return")) led.
Proof.
  let r := eval vm_compute in (main (H:=ref_pandas) [src_reason] []) in
  match r with
  | (Ok (mk_outputs ?m (Some ?led)), ?h) =>
      exists (mk_outputs m (Some led)), h, led
  end.
  split; [by_run |]. split; [reflexivity |]. split; by_decide.
Qed.

(** * The further properties on explicit tables *)

(** Runs a computation that returns a pair and hands the two components and
    the final heap to [tac]. *)
Ltac with_run t tac :=
  let r := eval vm_compute in t in
  match r with
  | (Ok (?a, ?b), ?h) => tac a b h
  end.

Lemma table_a_rectangular : rectangular (H:=ref_pandas) table_a.
Proof. repeat constructor. Qed.



Lemma coerce_types_rectangular_witness :
  ∃ l iss h',
    coerce_types (H:=ref_pandas) 0 [table_a] = (Ok (l, iss), h')
    ∧ ∃ g, h' !! l = Some g ∧ nrows g = nrows table_a ∧ rectangular g.
Proof.
  with_run (coerce_types (H:=ref_pandas) 0 [table_a]) ltac:(fun l iss h' =>
    exists l, iss, h'; split; [by_run |];
    apply (coerce_types_rectangular (H:=ref_pandas) 0 [table_a] table_a
             l iss h');
    [reflexivity | apply table_a_rectangular | by_run]).
Defined.

Lemma decimal_cell_witness :
  ∃ l iss h',
    coerce_types (H:=ref_pandas) 0 [table_a] = (Ok (l, iss), h')
    ∧ ∃ g, h' !! l = Some g
      ∧ row_get g 1 "Total Delivered (kgs)" = Some NA
      ∧ (∀ i, i ∈ iss → icol i = "Total Delivered (kgs)" →
              (∃ v', irest i = Some (1, v')) →
              i = mk_issue "bad_float" "Total Delivered (kgs)"
                    (Some (1, Str "abc")))
      ∧ (mk_issue "bad_float" "Total Delivered (kgs)" (Some (1, Str "abc"))
           ∈ iss
         ↔ (None : option decimal) = None ∧ notna (Str "abc" : cell decimal)
                                              = true).
Proof.
  with_run (coerce_types (H:=ref_pandas) 0 [table_a]) ltac:(fun l iss h' =>
    exists l, iss, h'; split; [by_run |];
    apply (decimal_cell (H:=ref_pandas) 0 [table_a] table_a l iss h'
             "Total Delivered (kgs)" [Str "3.7"; Str "abc"] 1 (Str "abc")
             None);
    [reflexivity | by_run | find_elem | reflexivity | reflexivity
    | reflexivity]).
Defined.

Lemma integer_cell_witness :
  ∃ l iss h',
    coerce_types (H:=ref_pandas) 0 [table_a] = (Ok (l, iss), h')
    ∧ ∃ g, h' !! l = Some g
      ∧ (∃ z, ref_safe_int64 (mk_decimal 3 0) = Some z
              ∧ row_get g 0 "Plant Code" = Some (Int z))
      ∧ (∀ i, i ∈ iss → icol i = "Plant Code" →
              (∃ v', irest i = Some (0, v')) →
              i = mk_issue "bad_int" "Plant Code" (Some (0, Str "3")))
      ∧ (mk_issue "bad_int" "Plant Code" (Some (0, Str "3")) ∈ iss
         ↔ Some (mk_decimal 3 0) = None
           ∧ notna (Str "3" : cell decimal) = true).
Proof.
  with_run (coerce_types (H:=ref_pandas) 0 [table_a]) ltac:(fun l iss h' =>
    exists l, iss, h'; split; [by_run |];
    apply (integer_cell (H:=ref_pandas) 0 [table_a] table_a l iss h'
             "Plant Code" [Str "3"; NA] 0 (Str "3") (Some (mk_decimal 3 0)));
    [reflexivity | by_run | find_elem | reflexivity | reflexivity
    | reflexivity]).
Defined.

Lemma date_cell_witness :
  ∃ l iss h',
    coerce_types (H:=ref_pandas) 0 [table_a] = (Ok (l, iss), h')
    ∧ ∃ g, h' !! l = Some g
      ∧ row_get g 0 "Date Delivered" = Some (Date (mk_date 2024 1 31))
      ∧ (mk_issue "bad_datetime" "Date Delivered"
           (Some (0, Str "2024-01-31")) ∈ iss
         ↔ Some (mk_date 2024 1 31) = None
           ∧ notna (Str "2024-01-31" : cell decimal) = true)
      ∧ (Some (mk_date 2024 1 31) ≠ None
         ∨ notna (Str "2024-01-31" : cell decimal) = false →
         ∀ i v', i ∈ iss → icol i = "Date Delivered" →
                 irest i ≠ Some (0, v')).
Proof.
  with_run (coerce_types (H:=ref_pandas) 0 [table_a]) ltac:(fun l iss h' =>
    exists l, iss, h'; split; [by_run |];
    apply (date_cell (H:=ref_pandas) 0 [table_a] table_a l iss h'
             "Date Delivered" [Str "2024-01-31"; Str "soon"] 0
             (Str "2024-01-31") (Some (mk_date 2024 1 31)));
    [reflexivity | by_run | find_elem | reflexivity | reflexivity
    | reflexivity]).
Defined.

Lemma text_column_copied_witness :
  ∃ l iss h',
    coerce_types (H:=ref_pandas) 0 [table_extra] = (Ok (l, iss), h')
    ∧ ∃ g, h' !! l = Some g
      ∧ get_col g "Plant" = Some (astype_string [Str "Plant1"])
      ∧ (∀ idx s,
           ([Str "Plant1"] : list (cell decimal)) !! idx = Some (Str s) →
           row_get g idx "Plant" = Some (Str s))
      ∧ (∀ idx, ([Str "Plant1"] : list (cell decimal)) !! idx = Some NA →
                row_get g idx "Plant" = Some NA)
      ∧ ∀ i, i ∈ iss → icol i ≠ "Plant".
Proof.
  with_run (coerce_types (H:=ref_pandas) 0 [table_extra])
    ltac:(fun l iss h' =>
    exists l, iss, h'; split; [by_run |];
    apply (text_column_copied (H:=ref_pandas) 0 [table_extra] table_extra
             l iss h' "Plant" [Str "Plant1"]);
    [reflexivity | by_run | find_elem | reflexivity]).
Defined.

Lemma issues_are_sound_witness :
  "Date Delivered" ∈ required_columns
  ∧ ((mk_issue "bad_datetime" "Date Delivered" (Some (0, Str "soon"))
      = mk_issue (N:=decimal) "missing_column" "Date Delivered" None
      ∧ "Date Delivered" ∉ labels (H:=ref_pandas) table_date)
     ∨ (∃ series idx v,
          get_col (H:=ref_pandas) table_date "Date Delivered" = Some series
          ∧ series !! idx = Some v ∧ notna v = true
          ∧ Some (0, Str "soon") = Some (idx, v)
          ∧ "bad_datetime" ∈ ["bad_datetime"; "bad_float"; "bad_int"])).
Proof.
  with_run (coerce_types (H:=ref_pandas) 0 [table_date])
    ltac:(fun l iss h' =>
    apply (issues_are_sound (H:=ref_pandas) 0 [table_date] table_date
             l iss h'
             (mk_issue "bad_datetime" "Date Delivered"
                (Some (0, Str "soon"))));
    [reflexivity | by_run | find_elem]).
Defined.

Lemma issues_have_no_duplicates_witness :
  ∃ l iss h',
    coerce_types (H:=ref_pandas) 0 [table_a] = (Ok (l, iss), h')
    ∧ NoDup ((λ i : issue decimal, (icol i, fst <$> irest i)) <$> iss).
Proof.
  with_run (coerce_types (H:=ref_pandas) 0 [table_a]) ltac:(fun l iss h' =>
    exists l, iss, h'; split; [by_run |];
    apply (issues_have_no_duplicates (H:=ref_pandas) 0 [table_a] table_a
             l iss h');
    [reflexivity | by_run]).
Defined.

Lemma invalid_value_iff_witness :
  mk_finding (row_get (H:=ref_pandas) table_validation 0 "Plant")
    (Some (0 + 2)) (Some "Validation") "invalid_value"
    (row_get table_validation 0 "Validation") "a.csv"
    ∈ validate_frame table_validation "a.csv"
  ↔ has_col table_validation "Validation" = true
    ∧ isna_py (row_get table_validation 0 "Validation") = false
    ∧ strip (str_py (row_get table_validation 0 "Validation"))
      ∉ allowed_validation_vals.
Proof.
  apply (invalid_value_iff (H:=ref_pandas) table_validation "a.csv" 0).
  simpl. lia.
Defined.

Lemma missing_value_iff_witness :
  mk_finding (row_get (H:=ref_pandas) table_reason 1 "Plant") (Some (1 + 2))
    (Some "Reason of Return") "missing_value" None "a.csv"
    ∈ validate_frame table_reason "a.csv"
  ↔ "Reason of Return" ∈ required_columns
    ∧ has_col table_reason "Reason of Return" = true
    ∧ "Reason of Return" ≠ "Remarks"
    ∧ isna_py (row_get table_reason 1 "Reason of Return") = true.
Proof.
  apply (missing_value_iff (H:=ref_pandas) table_reason "a.csv" 1).
  simpl. lia.
Defined.

Lemma column_missing_iff_witness :
  mk_finding (N:=decimal) None (Some (0 + 2)) (Some "Customer")
    "column_missing" None "a.csv"
    ∈ validate_frame (H:=ref_pandas) table_reason "a.csv"
  ↔ "Customer" ∈ required_columns
    ∧ has_col (H:=ref_pandas) table_reason "Customer" = false.
Proof.
  apply (column_missing_iff (H:=ref_pandas) table_reason "a.csv" 0).
  simpl. lia.
Defined.

Lemma validation_finding_fields_witness :
  f_file (mk_finding (N:=decimal) None (Some 2) (Some "Plant Code")
            "column_missing" None "a.csv") = "a.csv"
  ∧ (∃ c, Some "Plant Code" = Some c ∧ c ∈ required_columns)
  ∧ (∃ idx, idx < nrows table_reason ∧ Some 2 = Some (idx + 2)
            ∧ ("column_missing" ≠ "column_missing" →
               None = row_get (H:=ref_pandas) table_reason idx "Plant"))
  ∧ "column_missing" ∈ ["column_missing"; "missing_value"; "invalid_value";
                        "missing_reason"].
Proof.
  apply (validation_finding_fields (H:=ref_pandas) table_reason "a.csv"
           (mk_finding None (Some 2) (Some "Plant Code") "column_missing"
              None "a.csv")).
  apply list_elem_of_In. vm_compute. left. reflexivity.
Defined.

(** Runs [main] and hands the artifacts and the final heap to [tac]. *)
Ltac with_main t tac :=
  let r := eval vm_compute in t in
  match r with
  | (Ok ?o, ?h) => tac o h
  end.




Lemma provenance_column_witness :
  ∃ outs h' m,
    main (H:=ref_pandas) [src_a; src_unreadable; src_extra] []
    = (Ok outs, h')
    ∧ master_database outs = Some m
    ∧ get_col m "__source_file"
      = Some [Str "a.csv"; Str "a.csv"; Str "extra.csv"].
Proof.
  exists_master (main (H:=ref_pandas) [src_a; src_unreadable; src_extra] []).
  split; [by_run |]. split; [reflexivity |].
  eapply (provenance_column (H:=ref_pandas)
            [src_a; src_unreadable; src_extra] []);
    [by_run | reflexivity | discriminate].
Defined.

Lemma master_has_schema_columns_witness :
  ∃ outs h' m,
    main (H:=ref_pandas) [src_a; src_unreadable; src_extra] []
    = (Ok outs, h')
    ∧ master_database outs = Some m
    ∧ "Remarks" ∈ labels m.
Proof.
  exists_master (main (H:=ref_pandas) [src_a; src_unreadable; src_extra] []).
  split; [by_run |]. split; [reflexivity |].
  eapply (master_has_schema_columns (H:=ref_pandas)
            [src_a; src_unreadable; src_extra] []);
    [by_run | reflexivity | find_elem].
Defined.

Lemma unreadable_source_is_reported_witness :
  ∃ outs h',
    main (H:=ref_pandas) [src_a; src_unreadable; src_extra] []
    = (Ok outs, h')
    ∧ ∃ led, error_report outs = Some led
        ∧ mk_finding None None None "read_error" (Some (Str "unreadable"))
            "c.csv" ∈ led.
Proof.
  with_main (main (H:=ref_pandas) [src_a; src_unreadable; src_extra] [])
    ltac:(fun o h' =>
    exists o, h'; split; [by_run |];
    apply (unreadable_source_is_reported (H:=ref_pandas)
             [src_a; src_unreadable; src_extra] [] o h' "c.csv" "unreadable");
    [by_run | find_elem]).
Defined.

Lemma missing_column_reported_iff_witness :
  ∃ fr' er' h',
    process_source (H:=ref_pandas) ("dir/a.csv", ReadOk table_a) [] [] []
    = (Ok (fr', er'), h')
    ∧ ∃ fs, er' = [] ++ fs
        ∧ (mk_finding None None (Some "Plant") "missing_column" None
             "dir/a.csv" ∈ fs
           ↔ "Plant" ∈ required_columns
             ∧ ∀ c', c' ∈ labels (H:=ref_pandas) table_a →
                     strip c' ≠ "Plant").
Proof.
  with_run (process_source (H:=ref_pandas) ("dir/a.csv", ReadOk table_a)
              [] [] [])
    ltac:(fun fr' er' h' =>
    exists fr', er', h'; split; [by_run |];
    apply (missing_column_reported_iff (H:=ref_pandas) "dir/a.csv" table_a
             [] [] [] fr' er' h' "Plant");
    by_run).
Defined.

Lemma cell_issue_reaches_report_witness :
  ∃ fr' er' h' iss cdf,
    process_source (H:=ref_pandas) ("dir/a.csv", ReadOk table_a) [] [] []
    = (Ok (fr', er'), h')
    ∧ coerce_types (H:=ref_pandas) 0 [strip_labels table_a]
      = (Ok (1, iss), [strip_labels table_a; cdf])
    ∧ mk_finding (row_get cdf 1 "Plant") (Some (1 + 2))
        (Some "Total Delivered (kgs)") "bad_float" (Some (Str "abc"))
        "dir/a.csv" ∈ er'
    ∧ is_Some (row_get cdf 1 "Plant").
Proof.
  with_run (process_source (H:=ref_pandas) ("dir/a.csv", ReadOk table_a)
              [] [] [])
    ltac:(fun fr' er' h' =>
    let r := eval vm_compute in
               (coerce_types (H:=ref_pandas) 0 [strip_labels table_a]) in
    match r with
    | (Ok (_, ?iss), [_; ?cdf]) =>
        exists fr', er', h', iss, cdf;
        split; [by_run |]; split; [by_run |];
        apply (cell_issue_reaches_report (H:=ref_pandas) "dir/a.csv" table_a
                 [] [] [] fr' er' h' iss cdf
                 (mk_issue "bad_float" "Total Delivered (kgs)"
                    (Some (1, Str "abc"))) 1 (Str "abc"));
        [apply table_a_rectangular | by_run | by_run | find_elem
        | reflexivity]
    end).
Defined.

Lemma batches_compose_witness :
  ∃ fa ea ha fb eb hb,
    main_loop (H:=ref_pandas) [src_a] [] [] [] = (Ok (fa, ea), ha)
    ∧ main_loop (H:=ref_pandas) [src_unreadable; src_extra] [] [] []
      = (Ok (fb, eb), hb)
    ∧ ∃ fab hab,
        main_loop ([src_a] ++ [src_unreadable; src_extra]) [] [] []
        = (Ok (fab, ea ++ eb), hab)
        ∧ (λ l, hab !! l) <$> fab
          = ((λ l, ha !! l) <$> fa) ++ ((λ l, hb !! l) <$> fb).
Proof.
  with_run (main_loop (H:=ref_pandas) [src_a] [] [] [])
    ltac:(fun fa ea ha =>
    with_run (main_loop (H:=ref_pandas) [src_unreadable; src_extra] [] [] [])
      ltac:(fun fb eb hb =>
      exists fa, ea, ha, fb, eb, hb;
      split; [by_run |]; split; [by_run |];
      apply (batches_compose (H:=ref_pandas) [src_a]
               [src_unreadable; src_extra] [] [] fa ea ha fb eb hb);
      by_run)).
Defined.

Lemma process_source_keeps_tables_witness :
  (process_source (H:=ref_pandas) src_a [] [] [table_b]).2 !! 0
  = Some table_b
  ∧ ∀ raw, src_a.2 = ReadOk raw →
      (process_source (H:=ref_pandas) src_a [] [] [table_b]).2
        !! length [table_b]
      = Some (strip_labels raw).
Proof.
  apply (process_source_keeps_tables (H:=ref_pandas) src_a [] [] [table_b]
           0 table_b).
  reflexivity.
Defined.
